(** * Ownership bridge between flecs components and Chipmunk2D handles

    A shallow embedding of the move-only wrappers ([Space], [Body], [Shape]),
    the lifecycle observers and the collision handlers of
    [simple_struct_impl.cpp], [unique_ptr_impl.cpp] and the two earlier
    revisions of the simple-struct file, together with the properties that
    the design document states about them.

    Raw pointers are integers, [0] is [nullptr].  Wrapper objects live in a
    store indexed by the place the object occupies ([loc]), so that
    [this != &other] is a comparison of places.  The physics engine is a
    record of its live objects plus the list of calls made to it, in program
    order.  [log_debug] lines are not modelled. *)

From stdpp Require Import gmap strings list fin_maps.
From Stdlib Require Import ZArith Lia.
Open Scope Z_scope.

(** ** Outcomes of a call *)

(** A call returns, or stops the process on a failed [assert], or runs into
    a null or dangling pointer inside the engine. *)
Inductive outcome (A : Type) : Type :=
| Done (a : A)
| AssertionFailed (msg : string)
| Undefined.
Arguments Done {A} a.
Arguments AssertionFailed {A} msg.
Arguments Undefined {A}.

#[global] Instance outcome_ret : MRet outcome := @Done.
#[global] Instance outcome_bind : MBind outcome := λ A B f m,
  match m with
  | Done a => f a
  | AssertionFailed msg => AssertionFailed msg
  | Undefined => Undefined
  end.

Definition assert (c : bool) (msg : string) : outcome unit :=
  if c then Done tt else AssertionFailed msg.

Definition is_done {A} (o : outcome A) : bool :=
  match o with Done _ => true | _ => false end.

(** ** The physics engine *)

Record cpBody := CpBody { body_space : Z; body_userData : Z }.
Record cpShape := CpShape { shape_space : Z; shape_body : Z }.

Inductive call :=
| CpSpaceFree (s : Z)
| CpBodyFree (b : Z)
| CpShapeFree (sh : Z)
| CpSpaceSetGravity (s : Z)
| CpBodySetUserData (b v : Z)
| CpSpaceAddBody (s b : Z)
| CpSpaceRemoveBody (s b : Z)
| CpSpaceAddShape (s sh : Z)
| CpSpaceRemoveShape (s sh : Z)
| CpSpaceStep (s : Z).

#[global] Instance call_eq_dec : EqDecision call.
Proof. solve_decision. Defined.

Record Engine := MkEngine {
  spaces : gset Z;
  bodies : gmap Z cpBody;
  shapes : gmap Z cpShape;
  calls : list call
}.

Definition engine0 : Engine := MkEngine ∅ ∅ ∅ [].

(** Modelled from the spec: the engine's allocation functions (section 6,
    "allocation and explicit-release functions for each").  The first
    argument is the address the allocator answers; [0] is an allocation
    failure, and an allocator never answers the address of a live object. *)
Definition cpSpaceNew (s : Z) (E : Engine) : outcome Engine :=
  if bool_decide (s = 0) then Done E
  else if bool_decide (s ∈ spaces E) then Undefined
  else Done (MkEngine ({[s]} ∪ spaces E) (bodies E) (shapes E) (calls E)).

Definition cpBodyNew (b : Z) (E : Engine) : outcome Engine :=
  if bool_decide (b = 0) then Done E
  else match bodies E !! b with
       | Some _ => Undefined
       | None => Done (MkEngine (spaces E) (<[b := CpBody 0 0]> (bodies E))
                         (shapes E) (calls E))
       end.

Definition cpShapeNew (sh body : Z) (E : Engine) : outcome Engine :=
  if bool_decide (sh = 0) then Done E
  else match shapes E !! sh with
       | Some _ => Undefined
       | None => Done (MkEngine (spaces E) (bodies E)
                         (<[sh := CpShape 0 body]> (shapes E)) (calls E))
       end.

(** Modelled from the spec: explicit release (section 6).  Releasing an
    object that is not live is a double free. *)
Definition cpSpaceFree (s : Z) (E : Engine) : outcome Engine :=
  if bool_decide (s ∈ spaces E)
  then Done (MkEngine (spaces E ∖ {[s]}) (bodies E) (shapes E)
               (calls E ++ [CpSpaceFree s]))
  else Undefined.

Definition cpBodyFree (b : Z) (E : Engine) : outcome Engine :=
  match bodies E !! b with
  | Some _ => Done (MkEngine (spaces E) (delete b (bodies E)) (shapes E)
                      (calls E ++ [CpBodyFree b]))
  | None => Undefined
  end.

Definition cpShapeFree (sh : Z) (E : Engine) : outcome Engine :=
  match shapes E !! sh with
  | Some _ => Done (MkEngine (spaces E) (bodies E) (delete sh (shapes E))
                      (calls E ++ [CpShapeFree sh]))
  | None => Undefined
  end.

(** Modelled from the spec: membership of a body or shape in a space is kept
    by the engine (section 3), and read back with [cpBodyGetSpace] and
    [cpShapeGetSpace]. *)
Definition cpBodyGetSpace (b : Z) (E : Engine) : outcome Z :=
  match bodies E !! b with
  | Some o => Done (body_space o)
  | None => Undefined
  end.

Definition cpShapeGetSpace (sh : Z) (E : Engine) : outcome Z :=
  match shapes E !! sh with
  | Some o => Done (shape_space o)
  | None => Undefined
  end.

(** Modelled from the spec: the user-extension slot, "capable of storing one
    pointer-sized value" (section 6). *)
Definition cpBodySetUserData (b v : Z) (E : Engine) : outcome Engine :=
  match bodies E !! b with
  | Some o => Done (MkEngine (spaces E)
                      (<[b := CpBody (body_space o) v]> (bodies E))
                      (shapes E) (calls E ++ [CpBodySetUserData b v]))
  | None => Undefined
  end.

Definition cpBodyGetUserData (b : Z) (E : Engine) : outcome Z :=
  match bodies E !! b with
  | Some o => Done (body_userData o)
  | None => Undefined
  end.

(** Modelled from the spec: insert-into-space and remove-from-space for
    bodies and shapes, and the step function (section 6).  The elapsed time
    of a step and the positions and velocities it changes are floating
    point and are left out: a step is recorded as a call on a live space
    and nothing more.  It does not look at the objects of the space and
    invokes no contact handler; the handlers are modelled on their own. *)
Definition cpSpaceAddBody (s b : Z) (E : Engine) : outcome Engine :=
  if bool_decide (s ∈ spaces E) then
    match bodies E !! b with
    | Some o => Done (MkEngine (spaces E)
                        (<[b := CpBody s (body_userData o)]> (bodies E))
                        (shapes E) (calls E ++ [CpSpaceAddBody s b]))
    | None => Undefined
    end
  else Undefined.

Definition cpSpaceRemoveBody (s b : Z) (E : Engine) : outcome Engine :=
  if bool_decide (s ∈ spaces E) then
    match bodies E !! b with
    | Some o => Done (MkEngine (spaces E)
                        (<[b := CpBody 0 (body_userData o)]> (bodies E))
                        (shapes E) (calls E ++ [CpSpaceRemoveBody s b]))
    | None => Undefined
    end
  else Undefined.

Definition cpSpaceAddShape (s sh : Z) (E : Engine) : outcome Engine :=
  if bool_decide (s ∈ spaces E) then
    match shapes E !! sh with
    | Some o => Done (MkEngine (spaces E) (bodies E)
                        (<[sh := CpShape s (shape_body o)]> (shapes E))
                        (calls E ++ [CpSpaceAddShape s sh]))
    | None => Undefined
    end
  else Undefined.

Definition cpSpaceRemoveShape (s sh : Z) (E : Engine) : outcome Engine :=
  if bool_decide (s ∈ spaces E) then
    match shapes E !! sh with
    | Some o => Done (MkEngine (spaces E) (bodies E)
                        (<[sh := CpShape 0 (shape_body o)]> (shapes E))
                        (calls E ++ [CpSpaceRemoveShape s sh]))
    | None => Undefined
    end
  else Undefined.

Definition cpSpaceSetGravity (s : Z) (E : Engine) : outcome Engine :=
  if bool_decide (s ∈ spaces E)
  then Done (MkEngine (spaces E) (bodies E) (shapes E)
               (calls E ++ [CpSpaceSetGravity s]))
  else Undefined.

Definition cpSpaceStep (s : Z) (E : Engine) : outcome Engine :=
  if bool_decide (s ∈ spaces E)
  then Done (MkEngine (spaces E) (bodies E) (shapes E)
               (calls E ++ [CpSpaceStep s]))
  else Undefined.

(** ** Wrapper objects *)

(** Where a wrapper object lives: the singleton slot of the world, the
    [Body] or [Shape] component slot of an entity, or a local variable. *)
Inductive loc :=
| LSpace
| LBody (e : Z)
| LShape (e : Z)
| LTmp (n : Z).

#[global] Instance loc_eq_dec : EqDecision loc.
Proof. solve_decision. Defined.

Definition loc_enc (l : loc) : Z + (Z + (Z + unit)) :=
  match l with
  | LBody e => inl e
  | LShape e => inr (inl e)
  | LTmp n => inr (inr (inl n))
  | LSpace => inr (inr (inr tt))
  end.

Definition loc_dec (x : Z + (Z + (Z + unit))) : loc :=
  match x with
  | inl e => LBody e
  | inr (inl e) => LShape e
  | inr (inr (inl n)) => LTmp n
  | inr (inr (inr _)) => LSpace
  end.

#[global] Instance loc_countable : Countable loc.
Proof. apply (inj_countable' loc_enc loc_dec). by intros []. Defined.

(** The engine and the [ptr] field of every wrapper object. *)
Record State := MkState { eng : Engine; mem : gmap loc Z }.

Definition load (l : loc) (st : State) : outcome Z :=
  match mem st !! l with
  | Some p => Done p
  | None => Undefined
  end.

Definition store (l : loc) (p : Z) (st : State) : State :=
  MkState (eng st) (<[l := p]> (mem st)).

Definition with_eng (E : Engine) (st : State) : State :=
  MkState E (mem st).

(** ** [simple_struct_impl.cpp]: the wrappers *)

Module SimpleStruct.

(** [Space() : ptr{nullptr} {}] *)
Definition Space_ctor_default (this : loc) (st : State) : State :=
  store this 0 st.

(** [Space(cpSpace *p) : ptr{p}] *)
Definition Space_ctor (this : loc) (p : Z) (st : State) : State :=
  store this p st.

(** [Space& operator=(Space&& other)] *)
Definition Space_move_assign (this other : loc) (st : State) : outcome State :=
  if bool_decide (this = other) then Done st
  else
    p ← load this st;
    _ ← assert (bool_decide (p = 0)) "ptr == nullptr";
    q ← load other st;
    Done (store other 0 (store this q st)).

(** [Space(Space&& other) : ptr{nullptr} { *this = std::move(other); }] *)
Definition Space_ctor_move (this other : loc) (st : State) : outcome State :=
  Space_move_assign this other (store this 0 st).

(** [~Space()] *)
Definition Space_dtor (this : loc) (st : State) : outcome State :=
  p ← load this st;
  if bool_decide (p = 0) then Done st
  else E ← cpSpaceFree p (eng st); Done (with_eng E st).

(** [operator cpSpace*() const] *)
Definition Space_operator_cpSpace (this : loc) (st : State) : outcome Z :=
  p ← load this st;
  _ ← assert (bool_decide (p ≠ 0)) "cpSpace pointer not initialized";
  Done p.

(** [Body() : ptr{nullptr} {}] *)
Definition Body_ctor_default (this : loc) (st : State) : State :=
  store this 0 st.

(** [Body(cpBody *p) : ptr{p}] *)
Definition Body_ctor (this : loc) (p : Z) (st : State) : State :=
  store this p st.

(** [~Body()] *)
Definition Body_dtor (this : loc) (st : State) : outcome State :=
  p ← load this st;
  if bool_decide (p = 0) then Done st
  else
    sp ← cpBodyGetSpace p (eng st);
    _ ← assert (bool_decide (sp = 0)) "not removed from space";
    E ← cpBodyFree p (eng st);
    Done (with_eng E st).

(** [Body& operator=(Body&& other)] *)
Definition Body_move_assign (this other : loc) (st : State) : outcome State :=
  if bool_decide (this = other) then Done st
  else
    p ← load this st;
    st1 ← (if bool_decide (p = 0) then Done st
           else
             sp ← cpBodyGetSpace p (eng st);
             _ ← assert (bool_decide (sp = 0)) "not removed from space";
             E ← cpBodyFree p (eng st);
             Done (with_eng E st));
    q ← load other st1;
    Done (store other 0 (store this q st1)).

(** [Body(Body&& other) : ptr{nullptr} { *this = std::move(other); }] *)
Definition Body_ctor_move (this other : loc) (st : State) : outcome State :=
  Body_move_assign this other (store this 0 st).

(** [operator cpBody*() const] *)
Definition Body_operator_cpBody (this : loc) (st : State) : outcome Z :=
  p ← load this st;
  _ ← assert (bool_decide (p ≠ 0)) "cpBody pointer not initialized";
  Done p.

(** [Shape() : ptr{nullptr} {}] *)
Definition Shape_ctor_default (this : loc) (st : State) : State :=
  store this 0 st.

(** [Shape(cpShape *p) : ptr{p}] *)
Definition Shape_ctor (this : loc) (p : Z) (st : State) : State :=
  store this p st.

(** [~Shape()] *)
Definition Shape_dtor (this : loc) (st : State) : outcome State :=
  p ← load this st;
  if bool_decide (p = 0) then Done st
  else
    sp ← cpShapeGetSpace p (eng st);
    _ ← assert (bool_decide (sp = 0)) "not removed from space";
    E ← cpShapeFree p (eng st);
    Done (with_eng E st).

(** [Shape& operator=(Shape&& other)] *)
Definition Shape_move_assign (this other : loc) (st : State) : outcome State :=
  if bool_decide (this = other) then Done st
  else
    p ← load this st;
    st1 ← (if bool_decide (p = 0) then Done st
           else
             sp ← cpShapeGetSpace p (eng st);
             _ ← assert (bool_decide (sp = 0)) "not removed from space";
             E ← cpShapeFree p (eng st);
             Done (with_eng E st));
    q ← load other st1;
    Done (store other 0 (store this q st1)).

(** [Shape(Shape&& other) : ptr{nullptr} { *this = std::move(other); }] *)
Definition Shape_ctor_move (this other : loc) (st : State) : outcome State :=
  Shape_move_assign this other (store this 0 st).

(** [operator cpShape*() const] *)
Definition Shape_operator_cpShape (this : loc) (st : State) : outcome Z :=
  p ← load this st;
  _ ← assert (bool_decide (p ≠ 0)) "cpShape pointer not initialized";
  Done p.

End SimpleStruct.

(** ** The first revision of the simple-struct file

    No default constructor for [Body] and [Shape], [Space()] allocates, the
    conversions do not check, and move assignment overwrites [ptr]. *)

Module FirstVariant.

(** [Space() { ptr = cpSpaceNew(); }], [s] is the allocator's answer *)
Definition Space_ctor_default (this : loc) (s : Z) (st : State) : outcome State :=
  E ← cpSpaceNew s (eng st);
  Done (store this s (with_eng E st)).

(** [Body(cpBody *p) : ptr{p} {}] *)
Definition Body_ctor (this : loc) (p : Z) (st : State) : State :=
  store this p st.

(** [Body(Body&& other) { ptr = other.ptr; other.ptr = nullptr; }] *)
Definition Body_ctor_move (this other : loc) (st : State) : outcome State :=
  q ← load other st;
  Done (store other 0 (store this q st)).

(** [~Body()] *)
Definition Body_dtor (this : loc) (st : State) : outcome State :=
  p ← load this st;
  if bool_decide (p = 0) then Done st
  else
    sp ← cpBodyGetSpace p (eng st);
    _ ← assert (bool_decide (sp = 0)) "not removed from space";
    E ← cpBodyFree p (eng st);
    Done (with_eng E st).

(** [Body& operator=(Body&& other)] *)
Definition Body_move_assign (this other : loc) (st : State) : outcome State :=
  if bool_decide (this = other) then Done st
  else
    q ← load other st;
    Done (store other 0 (store this q st)).

(** [operator cpBody*() const { return ptr; }] *)
Definition Body_operator_cpBody (this : loc) (st : State) : outcome Z :=
  load this st.

(** [Shape(cpShape *p) : ptr{p} {}] *)
Definition Shape_ctor (this : loc) (p : Z) (st : State) : State :=
  store this p st.

(** [Shape(Shape&& other) { ptr = other.ptr; other.ptr = nullptr; }] *)
Definition Shape_ctor_move (this other : loc) (st : State) : outcome State :=
  q ← load other st;
  Done (store other 0 (store this q st)).

(** [~Shape()] *)
Definition Shape_dtor (this : loc) (st : State) : outcome State :=
  p ← load this st;
  if bool_decide (p = 0) then Done st
  else
    sp ← cpShapeGetSpace p (eng st);
    _ ← assert (bool_decide (sp = 0)) "not removed from space";
    E ← cpShapeFree p (eng st);
    Done (with_eng E st).

(** [Shape& operator=(Shape&& other)] *)
Definition Shape_move_assign (this other : loc) (st : State) : outcome State :=
  if bool_decide (this = other) then Done st
  else
    q ← load other st;
    Done (store other 0 (store this q st)).

(** [operator cpShape*() const { return ptr; }] *)
Definition Shape_operator_cpShape (this : loc) (st : State) : outcome Z :=
  load this st.

(** [Space(Space&& other) { ptr = other.ptr; other.ptr = nullptr; }] *)
Definition Space_ctor_move (this other : loc) (st : State) : outcome State :=
  q ← load other st;
  Done (store other 0 (store this q st)).

(** [~Space()] *)
Definition Space_dtor (this : loc) (st : State) : outcome State :=
  p ← load this st;
  if bool_decide (p = 0) then Done st
  else E ← cpSpaceFree p (eng st); Done (with_eng E st).

(** [Space& operator=(Space&& other)] *)
Definition Space_move_assign (this other : loc) (st : State) : outcome State :=
  if bool_decide (this = other) then Done st
  else
    q ← load other st;
    Done (store other 0 (store this q st)).

(** [operator cpSpace*() const { return ptr; }] *)
Definition Space_operator_cpSpace (this : loc) (st : State) : outcome Z :=
  load this st.

(** Modelled from the spec: [ecs.set<Space>(std::move(space))] of the
    component store (section 6, "default-construct-then-populate,
    move-in"): the singleton slot is default-constructed when absent, which
    in this revision allocates a space ([s2] is the allocator's answer),
    and the local is move-assigned into it. *)
Definition world_set_Space (space : loc) (s2 : Z) (st : State) : outcome State :=
  st1 ← match mem st !! LSpace with
        | Some _ => Done st
        | None => Space_ctor_default LSpace s2 st
        end;
  Space_move_assign LSpace space st1.

(** The statements of [chipmunk2d::chipmunk2d] up to the registration of
    the system, and the destruction of the local [space] at the end of the
    constructor; [s1] is what [cpSpaceNew()] answers in [Space space{}]. *)
Definition chipmunk2d (s1 s2 : Z) (st : State) : outcome State :=
  let space := LTmp 1 in
  st1 ← Space_ctor_default space s1 st;
  s ← Space_operator_cpSpace space st1;
  E ← cpSpaceSetGravity s (eng st1);
  st2 ← world_set_Space space s2 (with_eng E st1);
  st3 ← Space_dtor space st2;
  Done (MkState (eng st3) (delete space (mem st3))).

End FirstVariant.

(** ** The second revision of the simple-struct file

    Default constructors and checked conversions as in the final file; move
    assignment of every wrapper requires an empty destination. *)

Module SecondVariant.

(** [Body(cpBody *p) : ptr{p}] *)
Definition Body_ctor (this : loc) (p : Z) (st : State) : State :=
  store this p st.

(** [~Body()] *)
Definition Body_dtor (this : loc) (st : State) : outcome State :=
  p ← load this st;
  if bool_decide (p = 0) then Done st
  else
    sp ← cpBodyGetSpace p (eng st);
    _ ← assert (bool_decide (sp = 0)) "not removed from space";
    E ← cpBodyFree p (eng st);
    Done (with_eng E st).

(** [Body& operator=(Body&& other)] *)
Definition Body_move_assign (this other : loc) (st : State) : outcome State :=
  if bool_decide (this = other) then Done st
  else
    p ← load this st;
    _ ← assert (bool_decide (p = 0)) "ptr == nullptr";
    q ← load other st;
    Done (store other 0 (store this q st)).

(** [Body(Body&& other) : ptr{nullptr} { *this = std::move(other); }] *)
Definition Body_ctor_move (this other : loc) (st : State) : outcome State :=
  Body_move_assign this other (store this 0 st).

(** [operator cpBody*() const] *)
Definition Body_operator_cpBody (this : loc) (st : State) : outcome Z :=
  p ← load this st;
  _ ← assert (bool_decide (p ≠ 0)) "cpBody pointer not initialized";
  Done p.

(** [Shape(cpShape *p) : ptr{p}] *)
Definition Shape_ctor (this : loc) (p : Z) (st : State) : State :=
  store this p st.

(** [~Shape()] *)
Definition Shape_dtor (this : loc) (st : State) : outcome State :=
  p ← load this st;
  if bool_decide (p = 0) then Done st
  else
    sp ← cpShapeGetSpace p (eng st);
    _ ← assert (bool_decide (sp = 0)) "not removed from space";
    E ← cpShapeFree p (eng st);
    Done (with_eng E st).

(** [Shape& operator=(Shape&& other)] *)
Definition Shape_move_assign (this other : loc) (st : State) : outcome State :=
  if bool_decide (this = other) then Done st
  else
    p ← load this st;
    _ ← assert (bool_decide (p = 0)) "ptr == nullptr";
    q ← load other st;
    Done (store other 0 (store this q st)).

(** [Shape(Shape&& other) : ptr{nullptr} { *this = std::move(other); }] *)
Definition Shape_ctor_move (this other : loc) (st : State) : outcome State :=
  Shape_move_assign this other (store this 0 st).

(** [operator cpShape*() const] *)
Definition Shape_operator_cpShape (this : loc) (st : State) : outcome Z :=
  p ← load this st;
  _ ← assert (bool_decide (p ≠ 0)) "cpShape pointer not initialized";
  Done p.

(** [struct Space], the text of [simple_struct_impl.cpp] *)
Definition Space_ctor := SimpleStruct.Space_ctor.
Definition Space_ctor_default := SimpleStruct.Space_ctor_default.
Definition Space_dtor := SimpleStruct.Space_dtor.
Definition Space_move_assign := SimpleStruct.Space_move_assign.
Definition Space_operator_cpSpace := SimpleStruct.Space_operator_cpSpace.

(** Modelled from the spec: [ecs.set<Space>(std::move(space))] of the
    component store (section 6): the singleton slot is default-constructed
    when absent and the local is move-assigned into it. *)
Definition world_set_Space (space : loc) (st : State) : outcome State :=
  let st1 := match mem st !! LSpace with
             | Some _ => st
             | None => Space_ctor_default LSpace st
             end in
  Space_move_assign LSpace space st1.

(** The statements of [chipmunk2d::chipmunk2d] up to the registration of
    the system, and the destruction of the local [space]; [s] is what
    [cpSpaceNew()] answers in [Space space{cpSpaceNew()}]. *)
Definition chipmunk2d (s : Z) (st : State) : outcome State :=
  let space := LTmp 1 in
  E0 ← cpSpaceNew s (eng st);
  let st1 := Space_ctor space s (with_eng E0 st) in
  p ← Space_operator_cpSpace space st1;
  E ← cpSpaceSetGravity p (eng st1);
  st2 ← world_set_Space space (with_eng E st1);
  st3 ← Space_dtor space st2;
  Done (MkState (eng st3) (delete space (mem st3))).

End SecondVariant.

(** ** [unique_ptr_impl.cpp]: the wrappers

    [Shape] is the struct of [simple_struct_impl.cpp], repeated verbatim in
    the file; [Space] and [Body] are [std::unique_ptr] with a deleter.  The
    members of [std::unique_ptr] follow the C++ standard: [release] hands
    out the pointer and leaves null, [reset] stores the new pointer and then
    passes a non-null old one to the deleter, move assignment is
    [reset(u.release())], the destructor calls the deleter on a non-null
    pointer, and [get] returns the pointer unchecked. *)

Module UniquePtr.

(** [SpaceDeleter::operator()(cpSpace *space)] *)
Definition SpaceDeleter (space : Z) (E : Engine) : outcome Engine :=
  if bool_decide (space = 0) then Done E else cpSpaceFree space E.

(** [BodyDeleter::operator()(cpBody *body)] *)
Definition BodyDeleter (body : Z) (E : Engine) : outcome Engine :=
  if bool_decide (body = 0) then Done E else cpBodyFree body E.

Section unique_ptr.
Variable deleter : Z → Engine → outcome Engine.

Definition ctor (this : loc) (p : Z) (st : State) : State :=
  store this p st.

Definition get (this : loc) (st : State) : outcome Z :=
  load this st.

Definition release (this : loc) (st : State) : outcome (Z * State) :=
  p ← load this st;
  Done (p, store this 0 st).

Definition reset (this : loc) (p : Z) (st : State) : outcome State :=
  old ← load this st;
  let st1 := store this p st in
  if bool_decide (old = 0) then Done st1
  else E ← deleter old (eng st1); Done (with_eng E st1).

Definition move_assign (this other : loc) (st : State) : outcome State :=
  r ← release other st;
  reset this r.1 r.2.

Definition ctor_move (this other : loc) (st : State) : outcome State :=
  r ← release other st;
  Done (store this r.1 r.2).

Definition dtor (this : loc) (st : State) : outcome State :=
  p ← load this st;
  if bool_decide (p = 0) then Done st
  else E ← deleter p (eng st); Done (with_eng E st).
End unique_ptr.

(** [using Space = std::unique_ptr<cpSpace, SpaceDeleter>] *)
Definition Space_ctor := ctor.
Definition Space_get := get.
Definition Space_move_assign := move_assign SpaceDeleter.
Definition Space_ctor_move := ctor_move.
Definition Space_dtor := dtor SpaceDeleter.

(** [using Body = std::unique_ptr<cpBody, BodyDeleter>] *)
Definition Body_ctor := ctor.
Definition Body_get := get.
Definition Body_move_assign := move_assign BodyDeleter.
Definition Body_ctor_move := ctor_move.
Definition Body_dtor := dtor BodyDeleter.

(** [struct Shape], as in [simple_struct_impl.cpp] *)
Definition Shape_ctor := SimpleStruct.Shape_ctor.
Definition Shape_dtor := SimpleStruct.Shape_dtor.
Definition Shape_move_assign := SimpleStruct.Shape_move_assign.
Definition Shape_ctor_move := SimpleStruct.Shape_ctor_move.
Definition Shape_operator_cpShape := SimpleStruct.Shape_operator_cpShape.

End UniquePtr.

(** ** Entity identities in the user-data slot

    [flecs::entity_t] is a 64-bit unsigned integer; pointers are 64 bits
    wide.  [(void * )entity.id()] and [(uintptr_t)cpBodyGetUserData(a)] are
    conversions between the two. *)

Definition to_voidp (id : Z) : Z := id mod 2 ^ 64.
Definition to_uintptr (p : Z) : Z := p mod 2 ^ 64.

(** ** The component store, as far as the bridge sees it

    The store is external.  What the handlers do to it is recorded as the
    list of calls they make; [alive] is the set of identities that denote a
    live entity. *)

Inductive ecs_call :=
| EcsAddCollision (e target : Z)
| EcsDocName (e : Z)
| EcsDestruct (e : Z).

#[global] Instance ecs_call_eq_dec : EqDecision ecs_call.
Proof. solve_decision. Defined.

Record World := MkWorld { alive : gset Z; ecs_calls : list ecs_call }.

(** [e.add<Collision>(target)] *)
Definition entity_add_Collision (e target : Z) (w : World) : World :=
  MkWorld (alive w) (ecs_calls w ++ [EcsAddCollision e target]).

(** [e.doc_name()] *)
Definition entity_doc_name (e : Z) (w : World) : World :=
  MkWorld (alive w) (ecs_calls w ++ [EcsDocName e]).

(** ** The collision handlers

    Both files carry the same two lambdas.  [arb] is the pair of bodies that
    [cpArbiterGetBodies] yields, [data] the handler's [userData] ([None] for
    a null pointer).  The result is the store after the handler's calls and
    the [cpBool] handed back to the engine.  The [log_debug] line of the
    [projectile_collision] handler reads [proj.doc_name()] and
    [other.doc_name()] from the store before the two [add] calls (taken
    here in the order written); the line of the other handler prints the
    two identities themselves. *)

Module Handlers.

(** [beginFunc] of the [projectile_collision] tests *)
Definition beginFunc_projectile_collision
    (arb : Z * Z) (E : Engine) (data : option World) : outcome (World * bool) :=
  match data with
  | None => AssertionFailed "invalid world in space userdata"
  | Some ecs =>
      ua ← cpBodyGetUserData arb.1 E;
      let proj := to_uintptr ua in
      ub ← cpBodyGetUserData arb.2 E;
      let other := to_uintptr ub in
      let ecs1 := entity_doc_name other (entity_doc_name proj ecs) in
      Done (entity_add_Collision other proj (entity_add_Collision proj other ecs1),
            true)
  end.

(** [beginFunc] of the [indestructable_projectile] tests *)
Definition beginFunc_indestructable_projectile
    (arb : Z * Z) (E : Engine) (data : option World) : outcome (World * bool) :=
  match data with
  | None => AssertionFailed "invalid world in space userdata"
  | Some ecs =>
      ua ← cpBodyGetUserData arb.1 E;
      let proj := to_uintptr ua in
      ub ← cpBodyGetUserData arb.2 E;
      let other := to_uintptr ub in
      Done (entity_add_Collision other proj ecs, false)
  end.

End Handlers.

(** ** [simple_struct_impl.cpp]: the module and its observers *)

Module SimpleStructWorld.
Import SimpleStruct.

(** Modelled from the spec: [set<T>(value)] of the component store (section
    6, "default-construct-then-populate, move-in"): the value is wrapped in
    a temporary, the slot is default-constructed when absent, the temporary
    is move-assigned into the slot, and the temporary is destroyed.  The
    set observer, when there is one, runs after the move. *)
Definition world_set_Space (p : Z) (st : State) : outcome State :=
  let tmp := LTmp 0 in
  let st1 := Space_ctor tmp p st in
  let st2 := match mem st1 !! LSpace with
             | Some _ => st1
             | None => Space_ctor_default LSpace st1
             end in
  st3 ← Space_move_assign LSpace tmp st2;
  st4 ← Space_dtor tmp st3;
  Done (MkState (eng st4) (delete tmp (mem st4))).

(** The statements of [chipmunk2d::chipmunk2d] up to the registration of
    the systems; [space] is what [cpSpaceNew()] answers. *)
Definition chipmunk2d (space : Z) (st : State) : outcome State :=
  E0 ← cpSpaceNew space (eng st);
  _ ← assert (bool_decide (space ≠ 0)) "space != nullptr";
  E1 ← cpSpaceSetGravity space E0;
  world_set_Space space (with_eng E1 st).

(** system [step_space] *)
Definition step_space (st : State) : outcome State :=
  s ← Space_operator_cpSpace LSpace st;
  E ← cpSpaceStep s (eng st);
  Done (with_eng E st).

(** observer [body_on_set] *)
Definition body_on_set (entity : Z) (body space : loc) (st : State) : outcome State :=
  b ← Body_operator_cpBody body st;
  E1 ← cpBodySetUserData b (to_voidp entity) (eng st);
  let st1 := with_eng E1 st in
  s ← Space_operator_cpSpace space st1;
  b' ← Body_operator_cpBody body st1;
  E2 ← cpSpaceAddBody s b' (eng st1);
  Done (with_eng E2 st1).

(** observer [body_on_remove] *)
Definition body_on_remove (entity : Z) (body space : loc) (st : State) : outcome State :=
  s ← Space_operator_cpSpace space st;
  b ← Body_operator_cpBody body st;
  E ← cpSpaceRemoveBody s b (eng st);
  Done (with_eng E st).

(** observer [shape_on_set] *)
Definition shape_on_set (entity : Z) (shape space : loc) (st : State) : outcome State :=
  s ← Space_operator_cpSpace space st;
  sh ← Shape_operator_cpShape shape st;
  E ← cpSpaceAddShape s sh (eng st);
  Done (with_eng E st).

(** observer [shape_on_remove] *)
Definition shape_on_remove (entity : Z) (shape space : loc) (st : State) : outcome State :=
  s ← Space_operator_cpSpace space st;
  sh ← Shape_operator_cpShape shape st;
  E ← cpSpaceRemoveShape s sh (eng st);
  Done (with_eng E st).

(** Modelled from the spec: [entity.set<Body>(body)] with a raw handle, the
    store's [set] followed by the attach hook (sections 4.2 and 6). *)
Definition entity_set_Body (e b : Z) (st : State) : outcome State :=
  let tmp := LTmp 0 in
  let st1 := Body_ctor tmp b st in
  let st2 := match mem st1 !! LBody e with
             | Some _ => st1
             | None => Body_ctor_default (LBody e) st1
             end in
  st3 ← Body_move_assign (LBody e) tmp st2;
  st4 ← body_on_set e (LBody e) LSpace st3;
  st5 ← Body_dtor tmp st4;
  Done (MkState (eng st5) (delete tmp (mem st5))).

(** Modelled from the spec: [entity.set<Shape>(shape)] with a raw handle. *)
Definition entity_set_Shape (e sh : Z) (st : State) : outcome State :=
  let tmp := LTmp 0 in
  let st1 := Shape_ctor tmp sh st in
  let st2 := match mem st1 !! LShape e with
             | Some _ => st1
             | None => Shape_ctor_default (LShape e) st1
             end in
  st3 ← Shape_move_assign (LShape e) tmp st2;
  st4 ← shape_on_set e (LShape e) LSpace st3;
  st5 ← Shape_dtor tmp st4;
  Done (MkState (eng st5) (delete tmp (mem st5))).

(** Modelled from the spec: a [Body] component ceasing to be present
    (removal or destruction of the entity): the detach hook runs, then the
    slot's destructor, then the slot is given back (sections 3 and 4.2). *)
Definition entity_remove_Body (e : Z) (st : State) : outcome State :=
  match mem st !! LBody e with
  | None => Done st
  | Some _ =>
      st1 ← body_on_remove e (LBody e) LSpace st;
      st2 ← Body_dtor (LBody e) st1;
      Done (MkState (eng st2) (delete (LBody e) (mem st2)))
  end.

(** Modelled from the spec: a [Shape] component ceasing to be present. *)
Definition entity_remove_Shape (e : Z) (st : State) : outcome State :=
  match mem st !! LShape e with
  | None => Done st
  | Some _ =>
      st1 ← shape_on_remove e (LShape e) LSpace st;
      st2 ← Shape_dtor (LShape e) st1;
      Done (MkState (eng st2) (delete (LShape e) (mem st2)))
  end.

(** What the application does to the bridge, one step at a time.  The
    handle of [NewBody] and [NewShape] is the allocator's answer to the
    [cpBodyNew] or shape constructor call that precedes [set]. *)
Inductive event :=
| NewBody (e b : Z)
| NewShape (e sh body : Z)
| RemoveBody (e : Z)
| RemoveShape (e : Z)
| Progress.

Definition step (ev : event) (st : State) : outcome State :=
  match ev with
  | NewBody e b =>
      E ← cpBodyNew b (eng st);
      entity_set_Body e b (with_eng E st)
  | NewShape e sh body =>
      E ← cpShapeNew sh body (eng st);
      entity_set_Shape e sh (with_eng E st)
  | RemoveBody e => entity_remove_Body e st
  | RemoveShape e => entity_remove_Shape e st
  | Progress => step_space st
  end.

Fixpoint run (evs : list event) (st : State) : outcome State :=
  match evs with
  | [] => Done st
  | ev :: evs' => st' ← step ev st; run evs' st'
  end.

Definition event_entity (ev : event) : Z :=
  match ev with
  | NewBody e _ | NewShape e _ _ | RemoveBody e | RemoveShape e => e
  | Progress => 0
  end.

(** Resolution of a body to an identity, as the collision handlers do it:
    [(uintptr_t)cpBodyGetUserData(a)]. *)
Definition resolve (a : Z) (E : Engine) : outcome Z :=
  ua ← cpBodyGetUserData a E;
  Done (to_uintptr ua).

End SimpleStructWorld.

(** ** [unique_ptr_impl.cpp]: the module and its observers *)

Module UniquePtrWorld.
Import UniquePtr.

(** The statements of [chipmunk2d::chipmunk2d] up to the registration of
    the systems; [ecs.emplace<Space>(space)] constructs the singleton in
    place. *)
Definition chipmunk2d (space : Z) (st : State) : outcome State :=
  E0 ← cpSpaceNew space (eng st);
  _ ← assert (bool_decide (space ≠ 0)) "space != nullptr";
  E1 ← cpSpaceSetGravity space E0;
  Done (Space_ctor LSpace space (with_eng E1 st)).

(** observer [body_on_set] *)
Definition body_on_set (entity : Z) (body space : loc) (st : State) : outcome State :=
  b ← Body_get body st;
  E1 ← cpBodySetUserData b (to_voidp entity) (eng st);
  let st1 := with_eng E1 st in
  s ← Space_get space st1;
  b' ← Body_get body st1;
  E2 ← cpSpaceAddBody s b' (eng st1);
  Done (with_eng E2 st1).

(** observer [body_on_remove] *)
Definition body_on_remove (entity : Z) (body space : loc) (st : State) : outcome State :=
  s ← Space_get space st;
  b ← Body_get body st;
  E ← cpSpaceRemoveBody s b (eng st);
  Done (with_eng E st).

(** system [step_space] *)
Definition step_space (st : State) : outcome State :=
  s ← Space_get LSpace st;
  E ← cpSpaceStep s (eng st);
  Done (with_eng E st).

(** observer [shape_on_set] *)
Definition shape_on_set (entity : Z) (shape space : loc) (st : State) : outcome State :=
  s ← Space_get space st;
  sh ← Shape_operator_cpShape shape st;
  E ← cpSpaceAddShape s sh (eng st);
  Done (with_eng E st).

(** observer [shape_on_remove] *)
Definition shape_on_remove (entity : Z) (shape space : loc) (st : State) : outcome State :=
  s ← Space_get space st;
  sh ← Shape_operator_cpShape shape st;
  E ← cpSpaceRemoveShape s sh (eng st);
  Done (with_eng E st).

(** Modelled from the spec: [entity.emplace<Body>(body)], construction of
    the component in its slot followed by the attach hook (sections 4.2
    and 6). *)
Definition entity_emplace_Body (e b : Z) (st : State) : outcome State :=
  body_on_set e (LBody e) LSpace (Body_ctor (LBody e) b st).

(** Modelled from the spec: a [Body] component ceasing to be present: the
    detach hook runs, then the destructor of the slot, then the slot is
    given back (sections 3 and 4.2). *)
Definition entity_remove_Body (e : Z) (st : State) : outcome State :=
  match mem st !! LBody e with
  | None => Done st
  | Some _ =>
      st1 ← body_on_remove e (LBody e) LSpace st;
      st2 ← Body_dtor (LBody e) st1;
      Done (MkState (eng st2) (delete (LBody e) (mem st2)))
  end.

End UniquePtrWorld.

(** * Vocabulary of the properties *)

(** The engine after [cpBodyFree b] and after [cpShapeFree sh]. *)
Definition body_freed (b : Z) (E : Engine) : Engine :=
  MkEngine (spaces E) (delete b (bodies E)) (shapes E) (calls E ++ [CpBodyFree b]).

Definition shape_freed (sh : Z) (E : Engine) : Engine :=
  MkEngine (spaces E) (bodies E) (delete sh (shapes E)) (calls E ++ [CpShapeFree sh]).

(** The wrapper at [LTmp 0] holds the handle [10], the wrapper at [LTmp 1]
    holds [11].  Read as a space, [10] is live; read as a body or as a
    shape, [10] and [11] are live and in no space. *)
Definition two_wrappers : State :=
  MkState (MkEngine {[10]} {[10 := CpBody 0 0; 11 := CpBody 0 0]}
             {[10 := CpShape 0 0; 11 := CpShape 0 0]} [])
          {[LTmp 0 := 10; LTmp 1 := 11]}.

(** The entity [1] owns body [10], which is a member of space [100]. *)
Definition body_in_space : State :=
  MkState (MkEngine {[100]} {[10 := CpBody 100 1]} ∅ [])
          {[LSpace := 100; LBody 1 := 10]}.

(** No wrapper object of the state holds the handle [h]. *)
Definition unowned (h : Z) (st : State) : Prop :=
  ∀ l : loc, mem st !! l ≠ Some h.

(** The move operations of one wrapper type: move construction, move
    assignment, destruction, and conversion to the raw handle.  The first
    place of [w_ctor_move] and [w_move_assign] is the destination. *)
Record wrapper := MkWrapper {
  w_ctor_move : loc → loc → State → outcome State;
  w_move_assign : loc → loc → State → outcome State;
  w_dtor : loc → State → outcome State;
  w_raw : loc → State → outcome Z
}.

Definition SimpleStruct_Space : wrapper :=
  MkWrapper SimpleStruct.Space_ctor_move SimpleStruct.Space_move_assign
    SimpleStruct.Space_dtor SimpleStruct.Space_operator_cpSpace.

Definition SimpleStruct_Body : wrapper :=
  MkWrapper SimpleStruct.Body_ctor_move SimpleStruct.Body_move_assign
    SimpleStruct.Body_dtor SimpleStruct.Body_operator_cpBody.

Definition SimpleStruct_Shape : wrapper :=
  MkWrapper SimpleStruct.Shape_ctor_move SimpleStruct.Shape_move_assign
    SimpleStruct.Shape_dtor SimpleStruct.Shape_operator_cpShape.

Definition SecondVariant_Body : wrapper :=
  MkWrapper SecondVariant.Body_ctor_move SecondVariant.Body_move_assign
    SecondVariant.Body_dtor SecondVariant.Body_operator_cpBody.

Definition SecondVariant_Shape : wrapper :=
  MkWrapper SecondVariant.Shape_ctor_move SecondVariant.Shape_move_assign
    SecondVariant.Shape_dtor SecondVariant.Shape_operator_cpShape.

Definition UniquePtr_Space : wrapper :=
  MkWrapper UniquePtr.Space_ctor_move UniquePtr.Space_move_assign
    UniquePtr.Space_dtor UniquePtr.Space_get.

Definition UniquePtr_Body : wrapper :=
  MkWrapper UniquePtr.Body_ctor_move UniquePtr.Body_move_assign
    UniquePtr.Body_dtor UniquePtr.Body_get.

Definition FirstVariant_Body : wrapper :=
  MkWrapper FirstVariant.Body_ctor_move FirstVariant.Body_move_assign
    FirstVariant.Body_dtor FirstVariant.Body_operator_cpBody.

Definition FirstVariant_Shape : wrapper :=
  MkWrapper FirstVariant.Shape_ctor_move FirstVariant.Shape_move_assign
    FirstVariant.Shape_dtor FirstVariant.Shape_operator_cpShape.

(** The wrappers whose conversion to the raw handle asserts a non-null
    [ptr]. *)
Definition checked_wrappers : list wrapper :=
  [ SimpleStruct_Space; SimpleStruct_Body; SimpleStruct_Shape;
    SecondVariant_Body; SecondVariant_Shape ].

(** The wrappers whose conversion returns [ptr] as it is. *)
Definition unchecked_wrappers : list wrapper :=
  [ UniquePtr_Space; UniquePtr_Body; FirstVariant_Body; FirstVariant_Shape ].

(** After a move from [w] into [d]: [w] holds no handle, [d] holds [h], and
    destroying [w] changes nothing. *)
Definition moved (W : wrapper) (w d : loc) (h : Z) (st' : State) : Prop :=
  mem st' !! w = Some 0 ∧ mem st' !! d = Some h ∧ w_dtor W w st' = Done st'.

(** The wrapper at [LTmp 0] is empty, the wrapper at [LTmp 1] holds the
    body [11]. *)
Definition empty_and_full : State :=
  MkState (MkEngine {[100]} {[11 := CpBody 0 0]} ∅ [])
          {[LTmp 0 := 0; LTmp 1 := 11]}.

(** The engine after the two calls of [body_on_set]. *)
Definition body_attached (entity s b : Z) (o : cpBody) (E : Engine) : Engine :=
  MkEngine (spaces E)
    (<[b := CpBody s (to_voidp entity)]>
       (<[b := CpBody (body_space o) (to_voidp entity)]> (bodies E)))
    (shapes E)
    ((calls E ++ [CpBodySetUserData b (to_voidp entity)]) ++ [CpSpaceAddBody s b]).

(** The entity [1] holds the fresh body [10]; the singleton holds the
    space [100]. *)
Definition before_attach : State :=
  MkState (MkEngine {[100]} {[10 := CpBody 0 0]} ∅ [])
          {[LSpace := 100; LBody 1 := 10]}.



(** The engine after [cpSpaceRemoveBody s b]. *)
Definition body_detached (s b : Z) (o : cpBody) (E : Engine) : Engine :=
  MkEngine (spaces E) (<[b := CpBody 0 (body_userData o)]> (bodies E)) (shapes E)
    (calls E ++ [CpSpaceRemoveBody s b]).

(** Operations on shapes and the step leave the bodies and the [Body]
    slots as they are. *)
Definition same_bodies (st st' : State) : Prop :=
  bodies (eng st') = bodies (eng st) ∧
  ∀ e, mem st' !! LBody e = mem st !! LBody e.

Definition not_body_slot (l : loc) : Prop := ∀ e, l ≠ LBody e.

(** The invariant: every [Body] slot holds a live body, a body that is a
    member of a space resolves to the entity of the slot that holds it, and
    no two slots hold the same body. *)
Definition owner_resolves (st : State) : Prop :=
  ∀ e b, mem st !! LBody e = Some b →
    ∃ o, bodies (eng st) !! b = Some o ∧
         (body_space o ≠ 0 → to_uintptr (body_userData o) = e).

Definition single_owner (st : State) : Prop :=
  ∀ e1 e2 b, mem st !! LBody e1 = Some b → mem st !! LBody e2 = Some b → e1 = e2.

Definition bridge_inv (st : State) : Prop := owner_resolves st ∧ single_owner st.

(** The state after the module constructor with the space [100]. *)
Definition started : State :=
  match SimpleStructWorld.chipmunk2d 100 (MkState engine0 ∅) with
  | Done st => st
  | _ => MkState engine0 ∅
  end.

(** Two entities get a body, the first also a shape; the space is stepped;
    the first entity loses its shape and its body. *)
Definition scenario : list SimpleStructWorld.event :=
  [SimpleStructWorld.NewBody 1 10; SimpleStructWorld.NewShape 1 20 10;
   SimpleStructWorld.NewBody 2 11; SimpleStructWorld.Progress;
   SimpleStructWorld.RemoveShape 1; SimpleStructWorld.RemoveBody 1].

Definition after_scenario : State :=
  match SimpleStructWorld.run scenario started with
  | Done st => st
  | _ => started
  end.

(** A move from [w] into [d] changed nothing but the two wrappers. *)
Definition only_moved (w d : loc) (st st' : State) : Prop :=
  eng st' = eng st ∧ ∀ l, l ≠ w → l ≠ d → mem st' !! l = mem st !! l.

(** The engine after [cpSpaceAddShape s sh] and after
    [cpSpaceRemoveShape s sh]. *)
Definition shape_attached (s sh : Z) (o : cpShape) (E : Engine) : Engine :=
  MkEngine (spaces E) (bodies E) (<[sh := CpShape s (shape_body o)]> (shapes E))
    (calls E ++ [CpSpaceAddShape s sh]).

Definition shape_detached (s sh : Z) (o : cpShape) (E : Engine) : Engine :=
  MkEngine (spaces E) (bodies E) (<[sh := CpShape 0 (shape_body o)]> (shapes E))
    (calls E ++ [CpSpaceRemoveShape s sh]).

(** The entity [1] owns the body [10] and the shape [20], both members of
    the space [100] of the singleton. *)
Definition attached_world : State :=
  MkState (MkEngine {[100]} {[10 := CpBody 100 1]} {[20 := CpShape 100 10]} [])
          {[LSpace := 100; LBody 1 := 10; LShape 1 := 20]}.

(** The engine after the module constructor: the space [s] exists and its
    gravity has been set. *)
Definition space_created (s : Z) (E : Engine) : Engine :=
  MkEngine ({[s]} ∪ spaces E) (bodies E) (shapes E) (calls E ++ [CpSpaceSetGravity s]).

(** The singleton slot holds the live space [s]. *)
Definition singleton_live (s : Z) (st : State) : Prop :=
  mem st !! LSpace = Some s ∧ s ≠ 0 ∧ s ∈ spaces (eng st).

(** No temporary wrapper is left over. *)
Definition no_temporaries (st : State) : Prop :=
  ∀ n, mem st !! LTmp n = None.

(** Every [Body] slot holds a live body that is a member of [s] and
    carries the identity of the slot's entity; every live body is held by
    some [Body] slot. *)
Definition bodies_attached (s : Z) (st : State) : Prop :=
  ∀ e b, mem st !! LBody e = Some b →
    b ≠ 0 ∧ bodies (eng st) !! b = Some (CpBody s (to_voidp e)).

Definition bodies_owned (st : State) : Prop :=
  ∀ b, is_Some (bodies (eng st) !! b) → ∃ e, mem st !! LBody e = Some b.

(** The same for shapes. *)
Definition shapes_attached (s : Z) (st : State) : Prop :=
  ∀ e sh, mem st !! LShape e = Some sh →
    sh ≠ 0 ∧ ∃ body, shapes (eng st) !! sh = Some (CpShape s body).

Definition shapes_owned (st : State) : Prop :=
  ∀ sh, is_Some (shapes (eng st) !! sh) → ∃ e, mem st !! LShape e = Some sh.

Definition single_shape_owner (st : State) : Prop :=
  ∀ e1 e2 sh, mem st !! LShape e1 = Some sh → mem st !! LShape e2 = Some sh → e1 = e2.

(** In a list of engine calls, every release of a body or shape comes
    directly after its removal from a space, and no space is released. *)
Definition frees_follow_removals (cs : list call) : Prop :=
  ∀ (i : nat) (c : call), cs !! i = Some c →
    match c with
    | CpBodyFree b => ∃ (j : nat) s, i = S j ∧ cs !! j = Some (CpSpaceRemoveBody s b)
    | CpShapeFree sh => ∃ (j : nat) s, i = S j ∧ cs !! j = Some (CpSpaceRemoveShape s sh)
    | CpSpaceFree _ => False
    | _ => True
    end.

Definition is_free (c : call) : bool :=
  match c with
  | CpBodyFree _ | CpShapeFree _ | CpSpaceFree _ => true
  | _ => false
  end.

Definition world_inv (s : Z) (st : State) : Prop :=
  singleton_live s st ∧ no_temporaries st ∧
  bodies_attached s st ∧ bodies_owned st ∧ single_owner st ∧
  shapes_attached s st ∧ shapes_owned st ∧ single_shape_owner st ∧
  frees_follow_removals (calls (eng st)).

(** Wrappers of the three kinds, each with a source to move from.  The
    singleton holds the space [100] and the local [LTmp 9] the space [101];
    the [Body] of entity [1] holds the body [10], which is in no space, and
    [LTmp 1] the body [11]; the [Shape] of entity [1] holds the shape [20],
    which is in no space, and [LTmp 2] the shape [21]. *)
Definition typed_wrappers : State :=
  MkState (MkEngine {[100; 101]} {[10 := CpBody 0 0; 11 := CpBody 0 0]}
             {[20 := CpShape 0 10; 21 := CpShape 0 11]} [])
          {[LSpace := 100; LTmp 9 := 101; LBody 1 := 10; LTmp 1 := 11;
            LShape 1 := 20; LTmp 2 := 21]}.

(** The engine after [cpSpaceFree s]. *)
Definition space_freed (s : Z) (E : Engine) : Engine :=
  MkEngine (spaces E ∖ {[s]}) (bodies E) (shapes E) (calls E ++ [CpSpaceFree s]).

(** The engine after the module constructor of the first revision: the
    spaces [s1] and [s2] exist, and the gravity of [s1] has been set. *)
Definition two_spaces_created (s1 s2 : Z) (E : Engine) : Engine :=
  MkEngine ({[s2]} ∪ ({[s1]} ∪ spaces E)) (bodies E) (shapes E)
    (calls E ++ [CpSpaceSetGravity s1]).

(** The entity [1] owns the attached body [10]; the body [11] has just been
    allocated and belongs to no entity yet. *)
Definition one_attached_one_fresh : State :=
  MkState (MkEngine {[100]} {[10 := CpBody 100 1; 11 := CpBody 0 0]} ∅ [])
          {[LSpace := 100; LBody 1 := 10]}.

(** * Properties *)

(** ** Reasoning about outcomes *)

Lemma bind_Done {A B} (m : outcome A) (f : A → outcome B) (r : B) :
  m ≫= f = Done r → ∃ a, m = Done a ∧ f a = Done r.
Proof. destruct m as [a| |]; simpl; [eauto | discriminate | discriminate]. Qed.

Lemma load_store_eq (l : loc) (p : Z) (st : State) : load l (store l p st) = Done p.
Proof. unfold load, store. simpl. by rewrite lookup_insert_eq. Qed.

(** Splits a hypothesis [H : (x ← m; k) = Done r] into the two steps. *)
Ltac inv_bind H :=
  let a := fresh "a" in
  let Hm := fresh "Hm" in
  apply bind_Done in H as (a & Hm & H).

(** Rewrites the guards of a wrapper operation with the facts at hand. *)
Ltac guards :=
  repeat first
    [ rewrite bool_decide_eq_true_2 by (done || lia)
    | rewrite bool_decide_eq_false_2 by (done || congruence || lia) ].

(** ** Self move assignment *)

(** C9: in [simple_struct_impl.cpp], move-assigning a [Space], [Body] or
    [Shape] wrapper to itself returns with the state unchanged: the handle
    is neither released nor nulled, no engine call is made and no assertion
    fires. *)
Theorem self_move_assign_unchanged (this : loc) (st : State) :
  SimpleStruct.Space_move_assign this this st = Done st ∧
  SimpleStruct.Body_move_assign this this st = Done st ∧
  SimpleStruct.Shape_move_assign this this st = Done st.
Proof.
  unfold SimpleStruct.Space_move_assign, SimpleStruct.Body_move_assign,
    SimpleStruct.Shape_move_assign.
  by guards.
Qed.

(** ** Move assignment into a wrapper that holds a handle *)

Lemma Body_move_assign_releases (this other : loc) (st : State) (p q : Z) (o : cpBody) :
  this ≠ other → mem st !! this = Some p → p ≠ 0 → mem st !! other = Some q →
  bodies (eng st) !! p = Some o → body_space o = 0 →
  SimpleStruct.Body_move_assign this other st
  = Done (store other 0 (store this q (with_eng (body_freed p (eng st)) st))).
Proof.
  intros Hne Hp Hp0 Hq Ho Hsp.
  unfold SimpleStruct.Body_move_assign, load, cpBodyGetSpace, cpBodyFree.
  guards. rewrite Hp. simpl. guards. rewrite Ho. simpl. rewrite Hsp. simpl.
  by rewrite Hq.
Qed.

Lemma Shape_move_assign_releases (this other : loc) (st : State) (p q : Z) (o : cpShape) :
  this ≠ other → mem st !! this = Some p → p ≠ 0 → mem st !! other = Some q →
  shapes (eng st) !! p = Some o → shape_space o = 0 →
  SimpleStruct.Shape_move_assign this other st
  = Done (store other 0 (store this q (with_eng (shape_freed p (eng st)) st))).
Proof.
  intros Hne Hp Hp0 Hq Ho Hsp.
  unfold SimpleStruct.Shape_move_assign, load, cpShapeGetSpace, cpShapeFree.
  guards. rewrite Hp. simpl. guards. rewrite Ho. simpl. rewrite Hsp. simpl.
  by rewrite Hq.
Qed.

Lemma Body_move_assign_in_space (this other : loc) (st : State) (p : Z) (o : cpBody) :
  this ≠ other → mem st !! this = Some p → p ≠ 0 →
  bodies (eng st) !! p = Some o → body_space o ≠ 0 →
  SimpleStruct.Body_move_assign this other st = AssertionFailed "not removed from space".
Proof.
  intros Hne Hp Hp0 Ho Hsp.
  unfold SimpleStruct.Body_move_assign, load, cpBodyGetSpace.
  guards. rewrite Hp. simpl. guards. rewrite Ho. simpl. by guards.
Qed.

Lemma Shape_move_assign_in_space (this other : loc) (st : State) (p : Z) (o : cpShape) :
  this ≠ other → mem st !! this = Some p → p ≠ 0 →
  shapes (eng st) !! p = Some o → shape_space o ≠ 0 →
  SimpleStruct.Shape_move_assign this other st = AssertionFailed "not removed from space".
Proof.
  intros Hne Hp Hp0 Ho Hsp.
  unfold SimpleStruct.Shape_move_assign, load, cpShapeGetSpace.
  guards. rewrite Hp. simpl. guards. rewrite Ho. simpl. by guards.
Qed.

(** C10 (amended): in [simple_struct_impl.cpp], move assignment from a
    different object into a [Space] that holds a handle is the fatal
    assertion "ptr == nullptr", with nothing released; into an empty [Space]
    it transfers the handle.  Move assignment into a [Body] or [Shape] that
    holds a live handle frees the old handle first and then takes the new
    one when the old handle is in no space, and is the fatal assertion "not
    removed from space" when the old handle is still a member of a space. *)
Theorem Space_move_assign_requires_empty (st : State) :
  (∀ this other p, this ≠ other → mem st !! this = Some p → p ≠ 0 →
     SimpleStruct.Space_move_assign this other st = AssertionFailed "ptr == nullptr") ∧
  (∀ this other q, this ≠ other → mem st !! this = Some 0 → mem st !! other = Some q →
     SimpleStruct.Space_move_assign this other st
     = Done (store other 0 (store this q st))) ∧
  (∀ this other p q o,
     this ≠ other → mem st !! this = Some p → p ≠ 0 → mem st !! other = Some q →
     bodies (eng st) !! p = Some o →
     SimpleStruct.Body_move_assign this other st
     = if bool_decide (body_space o = 0)
       then Done (store other 0 (store this q (with_eng (body_freed p (eng st)) st)))
       else AssertionFailed "not removed from space") ∧
  (∀ this other p q o,
     this ≠ other → mem st !! this = Some p → p ≠ 0 → mem st !! other = Some q →
     shapes (eng st) !! p = Some o →
     SimpleStruct.Shape_move_assign this other st
     = if bool_decide (shape_space o = 0)
       then Done (store other 0 (store this q (with_eng (shape_freed p (eng st)) st)))
       else AssertionFailed "not removed from space").
Proof.
  split_and!.
  - intros this other p Hne Hp Hp0.
    unfold SimpleStruct.Space_move_assign, load. guards. rewrite Hp. simpl.
    by guards.
  - intros this other q Hne Hp Hq.
    unfold SimpleStruct.Space_move_assign, load. guards. rewrite Hp. simpl.
    by rewrite Hq.
  - intros this other p q o Hne Hp Hp0 Hq Ho. case_bool_decide.
    + by eapply Body_move_assign_releases.
    + by eapply Body_move_assign_in_space.
  - intros this other p q o Hne Hp Hp0 Hq Ho. case_bool_decide.
    + by eapply Shape_move_assign_releases.
    + by eapply Shape_move_assign_in_space.
Qed.

Lemma Space_move_assign_requires_empty_witness :
  SimpleStruct.Space_move_assign LSpace (LTmp 9) typed_wrappers
    = AssertionFailed "ptr == nullptr" ∧
  SimpleStruct.Body_move_assign (LBody 1) (LTmp 1) typed_wrappers
    = Done (store (LTmp 1) 0 (store (LBody 1) 11
              (with_eng (body_freed 10 (eng typed_wrappers)) typed_wrappers))) ∧
  SimpleStruct.Shape_move_assign (LShape 1) (LTmp 2) typed_wrappers
    = Done (store (LTmp 2) 0 (store (LShape 1) 21
              (with_eng (shape_freed 20 (eng typed_wrappers)) typed_wrappers))).
Proof.
  destruct (Space_move_assign_requires_empty typed_wrappers)
    as (Hspace & _ & Hbody & Hshape).
  split_and!.
  - apply (Hspace LSpace (LTmp 9) 100); first [discriminate | reflexivity | lia].
  - apply (Hbody (LBody 1) (LTmp 1) 10 11 (CpBody 0 0));
      first [discriminate | reflexivity | lia].
  - apply (Hshape (LShape 1) (LTmp 2) 20 21 (CpShape 0 10));
      first [discriminate | reflexivity | lia].
Defined.

(** Move assignment into a [Body] or [Shape] whose handle is still a member
    of a space does not release the old handle: it stops on the
    assertion. *)
Lemma Body_move_assign_stops_on_space_member :
  cpBodyGetSpace 10 (eng attached_world) = Done 100 ∧
  SimpleStruct.Body_move_assign (LBody 1) (LTmp 1) (store (LTmp 1) 11 attached_world)
    = AssertionFailed "not removed from space" ∧
  cpShapeGetSpace 20 (eng attached_world) = Done 100 ∧
  SimpleStruct.Shape_move_assign (LShape 1) (LTmp 2) (store (LTmp 2) 21 attached_world)
    = AssertionFailed "not removed from space".
Proof. split_and!; reflexivity. Qed.

(** ** Destructors *)

Lemma Body_dtor_empty (this : loc) (st : State) :
  mem st !! this = Some 0 → SimpleStruct.Body_dtor this st = Done st.
Proof. intros H. unfold SimpleStruct.Body_dtor, load. rewrite H. simpl. by guards. Qed.

Lemma Body_dtor_releases (this : loc) (st : State) (p : Z) (o : cpBody) :
  mem st !! this = Some p → p ≠ 0 →
  bodies (eng st) !! p = Some o → body_space o = 0 →
  SimpleStruct.Body_dtor this st = Done (with_eng (body_freed p (eng st)) st).
Proof.
  intros Hp Hp0 Ho Hsp.
  unfold SimpleStruct.Body_dtor, load, cpBodyGetSpace, cpBodyFree.
  rewrite Hp. simpl. guards. rewrite Ho. simpl. rewrite Hsp. simpl. done.
Qed.

Lemma Body_dtor_in_space (this : loc) (st : State) (p : Z) (o : cpBody) :
  mem st !! this = Some p → p ≠ 0 →
  bodies (eng st) !! p = Some o → body_space o ≠ 0 →
  SimpleStruct.Body_dtor this st = AssertionFailed "not removed from space".
Proof.
  intros Hp Hp0 Ho Hsp.
  unfold SimpleStruct.Body_dtor, load, cpBodyGetSpace.
  rewrite Hp. simpl. guards. rewrite Ho. simpl. by guards.
Qed.

Lemma Shape_dtor_empty (this : loc) (st : State) :
  mem st !! this = Some 0 → SimpleStruct.Shape_dtor this st = Done st.
Proof. intros H. unfold SimpleStruct.Shape_dtor, load. rewrite H. simpl. by guards. Qed.

Lemma Shape_dtor_releases (this : loc) (st : State) (p : Z) (o : cpShape) :
  mem st !! this = Some p → p ≠ 0 →
  shapes (eng st) !! p = Some o → shape_space o = 0 →
  SimpleStruct.Shape_dtor this st = Done (with_eng (shape_freed p (eng st)) st).
Proof.
  intros Hp Hp0 Ho Hsp.
  unfold SimpleStruct.Shape_dtor, load, cpShapeGetSpace, cpShapeFree.
  rewrite Hp. simpl. guards. rewrite Ho. simpl. rewrite Hsp. simpl. done.
Qed.

Lemma Shape_dtor_in_space (this : loc) (st : State) (p : Z) (o : cpShape) :
  mem st !! this = Some p → p ≠ 0 →
  shapes (eng st) !! p = Some o → shape_space o ≠ 0 →
  SimpleStruct.Shape_dtor this st = AssertionFailed "not removed from space".
Proof.
  intros Hp Hp0 Ho Hsp.
  unfold SimpleStruct.Shape_dtor, load, cpShapeGetSpace.
  rewrite Hp. simpl. guards. rewrite Ho. simpl. by guards.
Qed.

Lemma Space_dtor_empty (this : loc) (st : State) :
  mem st !! this = Some 0 → SimpleStruct.Space_dtor this st = Done st.
Proof. intros H. unfold SimpleStruct.Space_dtor, load. rewrite H. simpl. by guards. Qed.

(** The destructors of the two earlier revisions have the text of the final
    one. *)
Lemma FirstVariant_Body_dtor_eq : FirstVariant.Body_dtor = SimpleStruct.Body_dtor.
Proof. reflexivity. Qed.

Lemma FirstVariant_Shape_dtor_eq : FirstVariant.Shape_dtor = SimpleStruct.Shape_dtor.
Proof. reflexivity. Qed.

Lemma SecondVariant_Body_dtor_eq : SecondVariant.Body_dtor = SimpleStruct.Body_dtor.
Proof. reflexivity. Qed.

Lemma SecondVariant_Shape_dtor_eq : SecondVariant.Shape_dtor = SimpleStruct.Shape_dtor.
Proof. reflexivity. Qed.

(** The deleter of the [unique_ptr] body frees a non-null handle whatever
    space it is in. *)
Lemma BodyDeleter_frees (b : Z) (E : Engine) (o : cpBody) :
  b ≠ 0 → bodies E !! b = Some o →
  UniquePtr.BodyDeleter b E = Done (body_freed b E).
Proof.
  intros Hb Ho. unfold UniquePtr.BodyDeleter, cpBodyFree. guards. by rewrite Ho.
Qed.

(** C1: the deleter of the [unique_ptr] body releases a handle that is
    still a member of the space without any assertion, where the destructor
    of the simple-struct body stops on "not removed from space". *)
Theorem BodyDeleter_frees_space_member :
  cpBodyGetSpace 10 (eng body_in_space) = Done 100 ∧
  UniquePtr.BodyDeleter 10 (eng body_in_space)
    = Done (body_freed 10 (eng body_in_space)) ∧
  UniquePtr.Body_dtor (LBody 1) body_in_space
    = Done (with_eng (body_freed 10 (eng body_in_space)) body_in_space) ∧
  SimpleStruct.Body_dtor (LBody 1) body_in_space
    = AssertionFailed "not removed from space".
Proof. split_and!; reflexivity. Qed.

(** ** Move assignment in the first revision *)

Lemma FirstVariant_Body_move_assign_overwrites (this other : loc) (st : State) (q : Z) :
  this ≠ other → mem st !! other = Some q →
  FirstVariant.Body_move_assign this other st
  = Done (store other 0 (store this q st)).
Proof.
  intros Hne Hq. unfold FirstVariant.Body_move_assign, load. guards. by rewrite Hq.
Qed.

Lemma FirstVariant_Shape_move_assign_overwrites (this other : loc) (st : State) (q : Z) :
  this ≠ other → mem st !! other = Some q →
  FirstVariant.Shape_move_assign this other st
  = Done (store other 0 (store this q st)).
Proof.
  intros Hne Hq. unfold FirstVariant.Shape_move_assign, load. guards. by rewrite Hq.
Qed.

(** C4: in the first revision, move assignment into a [Body] (or [Shape])
    that holds the live handle [10] returns with the engine untouched: [10]
    is still allocated, no call was made, and no wrapper holds it.  On the
    same input the second revision stops on its assertion and the final
    file frees [10] first. *)
Theorem FirstVariant_move_assign_drops_handle :
  (∃ st', FirstVariant.Body_move_assign (LTmp 0) (LTmp 1) two_wrappers = Done st' ∧
          eng st' = eng two_wrappers ∧
          bodies (eng st') !! 10 = Some (CpBody 0 0) ∧
          mem st' !! LTmp 0 = Some 11 ∧ unowned 10 st') ∧
  (∃ st', FirstVariant.Shape_move_assign (LTmp 0) (LTmp 1) two_wrappers = Done st' ∧
          eng st' = eng two_wrappers ∧
          shapes (eng st') !! 10 = Some (CpShape 0 0) ∧
          mem st' !! LTmp 0 = Some 11 ∧ unowned 10 st') ∧
  SecondVariant.Body_move_assign (LTmp 0) (LTmp 1) two_wrappers
    = AssertionFailed "ptr == nullptr" ∧
  SimpleStruct.Body_move_assign (LTmp 0) (LTmp 1) two_wrappers
    = Done (store (LTmp 1) 0 (store (LTmp 0) 11
              (with_eng (body_freed 10 (eng two_wrappers)) two_wrappers))).
Proof.
  assert (Hun : unowned 10 (store (LTmp 1) 0 (store (LTmp 0) 11 two_wrappers))).
  { intros l. unfold store, two_wrappers. simpl.
    destruct (decide (l = LTmp 1)) as [->|H1]; [by rewrite lookup_insert_eq|].
    rewrite lookup_insert_ne by done.
    destruct (decide (l = LTmp 0)) as [->|H0]; [by rewrite lookup_insert_eq|].
    rewrite lookup_insert_ne by done.
    rewrite lookup_insert_ne by done. by rewrite lookup_singleton_ne. }
  split_and!.
  - eexists. split; [reflexivity|]. by split_and!.
  - eexists. split; [reflexivity|]. by split_and!.
  - reflexivity.
  - reflexivity.
Qed.

(** ** Moving a wrapper *)

(** Unfolds the operations of every wrapper type. *)
Ltac unfold_wrappers :=
  unfold SimpleStruct_Space, SimpleStruct_Body, SimpleStruct_Shape,
    SecondVariant_Body, SecondVariant_Shape, UniquePtr_Space, UniquePtr_Body,
    FirstVariant_Body, FirstVariant_Shape in *;
  unfold w_ctor_move, w_move_assign, w_dtor, w_raw,
    SimpleStruct.Space_ctor_move, SimpleStruct.Space_move_assign,
    SimpleStruct.Space_dtor, SimpleStruct.Space_operator_cpSpace,
    SimpleStruct.Body_ctor_move, SimpleStruct.Body_move_assign,
    SimpleStruct.Body_dtor, SimpleStruct.Body_operator_cpBody,
    SimpleStruct.Shape_ctor_move, SimpleStruct.Shape_move_assign,
    SimpleStruct.Shape_dtor, SimpleStruct.Shape_operator_cpShape,
    SecondVariant.Body_ctor_move, SecondVariant.Body_move_assign,
    SecondVariant.Body_dtor, SecondVariant.Body_operator_cpBody,
    SecondVariant.Shape_ctor_move, SecondVariant.Shape_move_assign,
    SecondVariant.Shape_dtor, SecondVariant.Shape_operator_cpShape,
    FirstVariant.Body_ctor_move, FirstVariant.Body_move_assign,
    FirstVariant.Body_dtor, FirstVariant.Body_operator_cpBody,
    FirstVariant.Shape_ctor_move, FirstVariant.Shape_move_assign,
    FirstVariant.Shape_dtor, FirstVariant.Shape_operator_cpShape,
    UniquePtr.Space_ctor_move, UniquePtr.Space_move_assign,
    UniquePtr.Space_dtor, UniquePtr.Space_get,
    UniquePtr.Body_ctor_move, UniquePtr.Body_move_assign,
    UniquePtr.Body_dtor, UniquePtr.Body_get,
    UniquePtr.ctor_move, UniquePtr.move_assign, UniquePtr.dtor,
    UniquePtr.get, UniquePtr.release, UniquePtr.reset in *.

(** Every state that a move operation of the list returns satisfies
    [moved], provided the source and the destination are different
    objects. *)
Lemma checked_move_post (W : wrapper) (w d : loc) (st st' : State) (h : Z) :
  W ∈ checked_wrappers → w ≠ d → mem st !! w = Some h →
  (w_ctor_move W d w st = Done st' ∨ w_move_assign W d w st = Done st') →
  moved W w d h st' ∧ ∃ msg, w_raw W w st' = AssertionFailed msg.
Proof.
  intros HW Hne Hw Hop. unfold checked_wrappers, moved in *.
  repeat (apply elem_of_cons in HW as [-> | HW]); [..| by apply elem_of_nil in HW];
    unfold_wrappers; simpl in *.
  all: destruct Hop as [Hop | Hop].
  all: rewrite bool_decide_eq_false_2 in Hop by done.
  all: unfold load, store in Hop; simpl in Hop.
  all: rewrite ?lookup_insert_eq in Hop; simpl in Hop.
  all: destruct (mem st !! d) as [p|] eqn:Hd; simpl in Hop; try discriminate.
  all: try (destruct (bool_decide (p = 0)) eqn:Hp0; simpl in Hop; try discriminate).
  all: repeat match type of Hop with
       | context [cpBodyGetSpace ?p ?E] =>
           destruct (cpBodyGetSpace p E) as [sp| |]; simpl in Hop; try discriminate;
           destruct (bool_decide (sp = 0)); simpl in Hop; try discriminate
       | context [cpShapeGetSpace ?p ?E] =>
           destruct (cpShapeGetSpace p E) as [sp| |]; simpl in Hop; try discriminate;
           destruct (bool_decide (sp = 0)); simpl in Hop; try discriminate
       | context [cpBodyFree ?p ?E] =>
           destruct (cpBodyFree p E) as [E'| |]; simpl in Hop; try discriminate
       | context [cpShapeFree ?p ?E] =>
           destruct (cpShapeFree p E) as [E'| |]; simpl in Hop; try discriminate
       end.
  all: rewrite ?lookup_insert_ne in Hop by done; rewrite ?Hw in Hop; simpl in Hop.
  all: inversion Hop; subst st'; clear Hop; unfold load; simpl.
  all: rewrite lookup_insert_eq; simpl.
  all: rewrite lookup_insert_ne by done; rewrite lookup_insert_eq.
  all: eauto.
Qed.

Lemma unchecked_move_post (W : wrapper) (w d : loc) (st st' : State) (h : Z) :
  W ∈ unchecked_wrappers → w ≠ d → mem st !! w = Some h →
  (w_ctor_move W d w st = Done st' ∨ w_move_assign W d w st = Done st') →
  moved W w d h st' ∧ w_raw W w st' = Done 0.
Proof.
  intros HW Hne Hw Hop. unfold unchecked_wrappers, moved in *.
  repeat (apply elem_of_cons in HW as [-> | HW]); [..| by apply elem_of_nil in HW];
    unfold_wrappers; simpl in *.
  all: destruct Hop as [Hop | Hop].
  all: rewrite ?bool_decide_eq_false_2 in Hop by done.
  all: unfold load, store in Hop; simpl in Hop.
  all: rewrite ?Hw in Hop; simpl in Hop.
  all: rewrite ?lookup_insert_ne in Hop by done.
  all: destruct (mem st !! d) as [p|] eqn:Hd; simpl in Hop; try discriminate.
  all: try (destruct (bool_decide (p = 0)) eqn:Hp0; simpl in Hop; try discriminate).
  all: repeat match type of Hop with
       | context [UniquePtr.SpaceDeleter ?p ?E] =>
           destruct (UniquePtr.SpaceDeleter p E) as [E'| |]; simpl in Hop;
           try discriminate
       | context [UniquePtr.BodyDeleter ?p ?E] =>
           destruct (UniquePtr.BodyDeleter p E) as [E'| |]; simpl in Hop;
           try discriminate
       end.
  all: inversion Hop; subst st'; clear Hop; unfold load; simpl.
  all: repeat (rewrite lookup_insert_eq || rewrite lookup_insert_ne by done); simpl.
  all: eauto.
Qed.

(** Move construction returns, and so does move assignment into an empty
    destination. *)
Lemma move_returns (W : wrapper) (w d : loc) (st : State) (h : Z) :
  W ∈ checked_wrappers ++ unchecked_wrappers → w ≠ d → mem st !! w = Some h →
  is_done (w_ctor_move W d w st) = true ∧
  (mem st !! d = Some 0 → is_done (w_move_assign W d w st) = true).
Proof.
  intros HW Hne Hw. unfold checked_wrappers, unchecked_wrappers in HW.
  simpl in HW.
  repeat (apply elem_of_cons in HW as [-> | HW]); [..| by apply elem_of_nil in HW];
    unfold_wrappers; simpl.
  all: split; [| intros Hd].
  all: rewrite ?bool_decide_eq_false_2 by done.
  all: unfold load, store; simpl.
  all: rewrite ?lookup_insert_eq; simpl.
  all: rewrite ?Hw; simpl; rewrite ?lookup_insert_ne by done.
  all: rewrite ?Hw, ?Hd; simpl; rewrite ?lookup_insert_ne by done.
  all: rewrite ?Hw, ?Hd; simpl.
  all: done.
Qed.

(** C3 (amended): a move construction, or a move assignment that returns,
    from [w] holding [h] into a different wrapper [d] leaves [w] without a
    handle and [d] with [h], and the destructor of [w] is then a no-op;
    move construction always returns and move assignment returns when [d]
    is empty.  Converting the moved-from [w] to its raw handle is a fatal
    assertion for the wrappers of [simple_struct_impl.cpp] and of the
    second revision; it yields null for [unique_ptr::get] and for the
    unchecked conversion of the first revision. *)
Theorem move_transfers_handle (W : wrapper) (w d : loc) (st : State) (h : Z) :
  W ∈ checked_wrappers ++ unchecked_wrappers → w ≠ d → mem st !! w = Some h →
  (∃ st', w_ctor_move W d w st = Done st' ∧ moved W w d h st') ∧
  (∀ st', w_move_assign W d w st = Done st' → moved W w d h st') ∧
  (mem st !! d = Some 0 → ∃ st', w_move_assign W d w st = Done st' ∧ moved W w d h st') ∧
  (∀ st', w_ctor_move W d w st = Done st' ∨ w_move_assign W d w st = Done st' →
     (W ∈ checked_wrappers → ∃ msg, w_raw W w st' = AssertionFailed msg) ∧
     (W ∈ unchecked_wrappers → w_raw W w st' = Done 0)).
Proof.
  intros HW Hne Hw.
  assert (Hpost : ∀ st',
    w_ctor_move W d w st = Done st' ∨ w_move_assign W d w st = Done st' →
    moved W w d h st').
  { intros st' Hop. apply elem_of_app in HW as [HW | HW].
    - by eapply checked_move_post.
    - by eapply unchecked_move_post. }
  destruct (move_returns W w d st h HW Hne Hw) as [Hc Ha].
  split_and!.
  - destruct (w_ctor_move W d w st) as [st'| |] eqn:Hop; try discriminate.
    exists st'. split; [done|]. apply Hpost. by left.
  - intros st' Hop. apply Hpost. by right.
  - intros Hd. specialize (Ha Hd).
    destruct (w_move_assign W d w st) as [st'| |] eqn:Hop; try discriminate.
    exists st'. split; [done|]. apply Hpost. by right.
  - intros st' Hop. split; intros HW'.
    + by eapply checked_move_post.
    + by eapply unchecked_move_post.
Qed.

Lemma move_transfers_handle_witness :
  (∃ st', SimpleStruct.Body_ctor_move (LTmp 0) (LTmp 1) empty_and_full = Done st' ∧
          moved SimpleStruct_Body (LTmp 1) (LTmp 0) 11 st') ∧
  (∀ st', SimpleStruct.Body_move_assign (LTmp 0) (LTmp 1) empty_and_full = Done st' →
          moved SimpleStruct_Body (LTmp 1) (LTmp 0) 11 st') ∧
  (mem empty_and_full !! LTmp 0 = Some 0 →
   ∃ st', SimpleStruct.Body_move_assign (LTmp 0) (LTmp 1) empty_and_full = Done st' ∧
          moved SimpleStruct_Body (LTmp 1) (LTmp 0) 11 st') ∧
  (∀ st', SimpleStruct.Body_ctor_move (LTmp 0) (LTmp 1) empty_and_full = Done st' ∨
          SimpleStruct.Body_move_assign (LTmp 0) (LTmp 1) empty_and_full = Done st' →
     (SimpleStruct_Body ∈ checked_wrappers →
      ∃ msg, SimpleStruct.Body_operator_cpBody (LTmp 1) st' = AssertionFailed msg) ∧
     (SimpleStruct_Body ∈ unchecked_wrappers →
      SimpleStruct.Body_operator_cpBody (LTmp 1) st' = Done 0)).
Proof.
  apply (move_transfers_handle SimpleStruct_Body (LTmp 1) (LTmp 0) empty_and_full 11).
  - apply elem_of_app. left. apply list_elem_of_further, list_elem_of_here.
  - discriminate.
  - reflexivity.
Defined.

(** In [simple_struct_impl.cpp] the conversion of a moved-from wrapper to
    its raw handle does not yield null: it stops on the assertion of the
    conversion operator. *)
Lemma moved_from_conversion_asserts :
  ∃ st', SimpleStruct.Body_move_assign (LTmp 0) (LTmp 1) empty_and_full = Done st' ∧
         mem st' !! LTmp 0 = Some 11 ∧ mem st' !! LTmp 1 = Some 0 ∧
         SimpleStruct.Body_operator_cpBody (LTmp 1) st'
           = AssertionFailed "cpBody pointer not initialized" ∧
         SimpleStruct.Body_operator_cpBody (LTmp 1) st' ≠ Done 0.
Proof. eexists. split; [reflexivity|]. by split_and!. Qed.

(** ** Allocation failure *)

Lemma chipmunk2d_returns (s : Z) (st : State) :
  s ≠ 0 → s ∉ spaces (eng st) → mem st !! LSpace = None →
  (∃ st', SimpleStructWorld.chipmunk2d s st = Done st' ∧
          mem st' !! LSpace = Some s ∧ s ∈ spaces (eng st')) ∧
  (∃ st', UniquePtrWorld.chipmunk2d s st = Done st' ∧
          mem st' !! LSpace = Some s ∧ s ∈ spaces (eng st')).
Proof.
  intros Hs Hfresh Hnone.
  unfold SimpleStructWorld.chipmunk2d, UniquePtrWorld.chipmunk2d,
    SimpleStructWorld.world_set_Space, SimpleStruct.Space_move_assign,
    SimpleStruct.Space_dtor, SimpleStruct.Space_ctor, UniquePtr.Space_ctor,
    UniquePtr.ctor, SimpleStruct.Space_ctor_default,
    cpSpaceNew, cpSpaceSetGravity, load, store, with_eng.
  guards. simpl. rewrite bool_decide_eq_true_2 by set_solver. simpl.
  split.
  - rewrite lookup_insert_ne by done. rewrite Hnone. guards. simpl.
    rewrite lookup_insert_eq. simpl. guards. simpl.
    rewrite lookup_insert_ne by done. rewrite lookup_insert_eq. simpl.
    rewrite lookup_insert_eq. simpl. guards. simpl.
    eexists. split; [reflexivity|]. simpl. split; [|set_solver].
    rewrite lookup_delete_ne by done. rewrite lookup_insert_ne by done.
    by rewrite lookup_insert_eq.
  - eexists. split; [reflexivity|]. simpl. split; [|set_solver].
    by rewrite lookup_insert_eq.
Qed.

(** C7 (amended): only the allocation of the space is checked at
    construction: when [cpSpaceNew] answers null the module constructor of
    either file stops on its assertion.  The wrapper constructors take any
    raw handle, null included, and return an empty wrapper; in
    [simple_struct_impl.cpp] the conversion of such a wrapper to its raw
    handle is then a fatal assertion. *)
Theorem allocation_failure_checked_for_space_only (this : loc) (p : Z) (st : State) :
  SimpleStructWorld.chipmunk2d 0 st = AssertionFailed "space != nullptr" ∧
  UniquePtrWorld.chipmunk2d 0 st = AssertionFailed "space != nullptr" ∧
  load this (SimpleStruct.Space_ctor this p st) = Done p ∧
  load this (SimpleStruct.Body_ctor this p st) = Done p ∧
  load this (SimpleStruct.Shape_ctor this p st) = Done p ∧
  load this (UniquePtr.Space_ctor this p st) = Done p ∧
  load this (UniquePtr.Body_ctor this p st) = Done p ∧
  SimpleStruct.Space_operator_cpSpace this (SimpleStruct.Space_ctor this 0 st)
    = AssertionFailed "cpSpace pointer not initialized" ∧
  SimpleStruct.Body_operator_cpBody this (SimpleStruct.Body_ctor this 0 st)
    = AssertionFailed "cpBody pointer not initialized" ∧
  SimpleStruct.Shape_operator_cpShape this (SimpleStruct.Shape_ctor this 0 st)
    = AssertionFailed "cpShape pointer not initialized".
Proof.
  unfold SimpleStruct.Space_operator_cpSpace, SimpleStruct.Body_operator_cpBody,
    SimpleStruct.Shape_operator_cpShape, SimpleStruct.Space_ctor,
    SimpleStruct.Body_ctor, SimpleStruct.Shape_ctor, UniquePtr.Space_ctor,
    UniquePtr.Body_ctor, UniquePtr.ctor.
  rewrite !load_store_eq. split_and!; reflexivity.
Qed.

(** An allocation that fails: [cpBodyNew] answers null and the wrappers of
    both files are built around it without any error; in the [unique_ptr]
    file the null handle then reaches the engine in the attach hook.  In the
    first revision the same holds for the space, which [Space()] allocates
    itself. *)
Lemma null_handle_wrapped_silently :
  cpBodyNew 0 engine0 = Done engine0 ∧
  load (LBody 1) (SimpleStruct.Body_ctor (LBody 1) 0 (MkState engine0 ∅)) = Done 0 ∧
  load (LBody 1) (UniquePtr.Body_ctor (LBody 1) 0 (MkState engine0 ∅)) = Done 0 ∧
  UniquePtrWorld.body_on_set 1 (LBody 1) LSpace
    (UniquePtr.Body_ctor (LBody 1) 0 body_in_space) = Undefined ∧
  FirstVariant.Space_ctor_default LSpace 0 (MkState engine0 ∅)
    = Done (store LSpace 0 (MkState engine0 ∅)).
Proof. split_and!; reflexivity. Qed.

(** ** The attach hook of a body *)

Lemma body_on_set_Done (entity : Z) (body space : loc) (st : State) (b s : Z) (o : cpBody) :
  mem st !! body = Some b → b ≠ 0 → mem st !! space = Some s → s ≠ 0 →
  bodies (eng st) !! b = Some o → s ∈ spaces (eng st) →
  SimpleStructWorld.body_on_set entity body space st
  = Done (with_eng (body_attached entity s b o (eng st)) st).
Proof.
  intros Hb Hb0 Hs Hs0 Ho Hin.
  unfold SimpleStructWorld.body_on_set, SimpleStruct.Body_operator_cpBody,
    SimpleStruct.Space_operator_cpSpace, load, cpBodySetUserData, cpSpaceAddBody.
  rewrite Hb. simpl. guards. simpl. rewrite Ho. simpl.
  rewrite Hs. simpl. guards. simpl. rewrite Hb. simpl. guards. simpl.
  rewrite lookup_insert_eq. simpl. reflexivity.
Qed.

Lemma UniquePtr_body_on_set_Done
    (entity : Z) (body space : loc) (st : State) (b s : Z) (o : cpBody) :
  mem st !! body = Some b → mem st !! space = Some s →
  bodies (eng st) !! b = Some o → s ∈ spaces (eng st) →
  UniquePtrWorld.body_on_set entity body space st
  = Done (with_eng (body_attached entity s b o (eng st)) st).
Proof.
  intros Hb Hs Ho Hin.
  unfold UniquePtrWorld.body_on_set, UniquePtr.Body_get, UniquePtr.Space_get,
    UniquePtr.get, load, cpBodySetUserData, cpSpaceAddBody.
  rewrite Hb. simpl. rewrite Ho. simpl. rewrite Hs. simpl. rewrite Hb. simpl.
  guards. rewrite lookup_insert_eq. simpl. reflexivity.
Qed.

(** C5: one invocation of [body_on_set], in either file, on a wrapper that
    holds the live body [b] and with the singleton holding the live space
    [s], makes exactly two engine calls, in this order: it writes the
    identity of the entity into the user data of [b], then adds [b] to [s].
    Afterwards the slot holds the identity and the body is a member of
    [s]. *)
Theorem body_on_set_writes_identity_then_inserts
    (entity : Z) (body space : loc) (st : State) (b s : Z) (o : cpBody) :
  mem st !! body = Some b → b ≠ 0 → mem st !! space = Some s → s ≠ 0 →
  bodies (eng st) !! b = Some o → s ∈ spaces (eng st) →
  ∃ st',
    SimpleStructWorld.body_on_set entity body space st = Done st' ∧
    UniquePtrWorld.body_on_set entity body space st = Done st' ∧
    calls (eng st')
      = calls (eng st) ++ [CpBodySetUserData b (to_voidp entity); CpSpaceAddBody s b] ∧
    cpBodyGetUserData b (eng st') = Done (to_voidp entity) ∧
    cpBodyGetSpace b (eng st') = Done s ∧
    mem st' = mem st.
Proof.
  intros Hb Hb0 Hs Hs0 Ho Hin.
  exists (with_eng (body_attached entity s b o (eng st)) st). split_and!.
  - by apply body_on_set_Done.
  - by apply UniquePtr_body_on_set_Done.
  - simpl. by rewrite <- app_assoc.
  - unfold cpBodyGetUserData. simpl. by rewrite lookup_insert_eq.
  - unfold cpBodyGetSpace. simpl. by rewrite lookup_insert_eq.
  - reflexivity.
Qed.

Lemma body_on_set_writes_identity_then_inserts_witness :
  ∃ st',
    SimpleStructWorld.body_on_set 1 (LBody 1) LSpace before_attach = Done st' ∧
    UniquePtrWorld.body_on_set 1 (LBody 1) LSpace before_attach = Done st' ∧
    calls (eng st')
      = calls (eng before_attach) ++ [CpBodySetUserData 10 (to_voidp 1); CpSpaceAddBody 100 10] ∧
    cpBodyGetUserData 10 (eng st') = Done (to_voidp 1) ∧
    cpBodyGetSpace 10 (eng st') = Done 100 ∧
    mem st' = mem before_attach.
Proof.
  apply (body_on_set_writes_identity_then_inserts 1 (LBody 1) LSpace before_attach
           10 100 (CpBody 0 0)).
  - reflexivity.
  - lia.
  - reflexivity.
  - lia.
  - reflexivity.
  - vm_compute. reflexivity.
Defined.

(** ** The collision handlers and stale identities *)




(** ** The identity round trip *)

Section round_trip.
Import SimpleStruct SimpleStructWorld.

(** Runs a hypothesis [H : op = Done st'] through the guards and lookups of
    [op], one case split at a time. *)
Ltac exec H :=
  repeat (simpl in H; match type of H with
  | Done _ = Done _ => fail 1
  | AssertionFailed _ = Done _ => discriminate H
  | Undefined = Done _ => discriminate H
  | context [bool_decide ?P] =>
      let HP := fresh "HP" in
      destruct (bool_decide_reflect P) as [HP|HP]
  | context [@lookup _ _ (gmap ?K ?V) _ ?k ?m] =>
      lazymatch m with
      | insert _ _ _ => fail
      | delete _ _ => fail
      | _ => let Hl := fresh "Hl" in destruct (m !! k) eqn:Hl
      end
  end).

Lemma Body_dtor_inv (this : loc) (st st' : State) :
  Body_dtor this st = Done st' →
  ∃ p, mem st !! this = Some p ∧
    ((p = 0 ∧ st' = st) ∨
     (p ≠ 0 ∧ ∃ o, bodies (eng st) !! p = Some o ∧ body_space o = 0 ∧
                   st' = with_eng (body_freed p (eng st)) st)).
Proof.
  unfold Body_dtor, load, cpBodyGetSpace, cpBodyFree. intros H.
  exec H; inversion H; subst; eauto 10.
Qed.

Lemma Body_move_assign_inv (this other : loc) (st st' : State) :
  this ≠ other → Body_move_assign this other st = Done st' →
  ∃ p q st1, mem st !! this = Some p ∧ mem st !! other = Some q ∧
    st' = store other 0 (store this q st1) ∧
    ((p = 0 ∧ st1 = st) ∨
     (p ≠ 0 ∧ ∃ o, bodies (eng st) !! p = Some o ∧ body_space o = 0 ∧
                   st1 = with_eng (body_freed p (eng st)) st)).
Proof.
  unfold Body_move_assign, load, cpBodyGetSpace, cpBodyFree. intros Hne H.
  exec H; try done; inversion H; subst; eauto 12.
Qed.

Lemma body_on_set_inv (e : Z) (body space : loc) (st st' : State) :
  body_on_set e body space st = Done st' →
  ∃ b s o, mem st !! body = Some b ∧ b ≠ 0 ∧ bodies (eng st) !! b = Some o ∧
    st' = with_eng (body_attached e s b o (eng st)) st.
Proof.
  unfold body_on_set, Body_operator_cpBody, Space_operator_cpSpace, load,
    cpBodySetUserData, cpSpaceAddBody. intros H.
  exec H. rewrite lookup_insert_eq in H. simpl in H.
  inversion H; subst. eauto 10.
Qed.

Lemma body_on_remove_inv (e : Z) (body space : loc) (st st' : State) :
  body_on_remove e body space st = Done st' →
  ∃ b s o, mem st !! body = Some b ∧ b ≠ 0 ∧ bodies (eng st) !! b = Some o ∧
    st' = with_eng (body_detached s b o (eng st)) st.
Proof.
  unfold body_on_remove, Body_operator_cpBody, Space_operator_cpSpace, load,
    cpSpaceRemoveBody. intros H.
  exec H. inversion H; subst. eauto 10.
Qed.

Lemma same_bodies_refl (st : State) : same_bodies st st.
Proof. by split. Qed.

Lemma same_bodies_trans (st1 st2 st3 : State) :
  same_bodies st1 st2 → same_bodies st2 st3 → same_bodies st1 st3.
Proof.
  intros [HB1 HM1] [HB2 HM2]. split; [congruence|].
  intros e. by rewrite HM2, HM1.
Qed.

Lemma same_bodies_store (l : loc) (p : Z) (st : State) :
  not_body_slot l → same_bodies st (store l p st).
Proof.
  intros Hl. split; [done|]. intros e. unfold store. simpl.
  rewrite lookup_insert_ne; [done|apply Hl].
Qed.

Lemma same_bodies_delete (l : loc) (st : State) :
  not_body_slot l → same_bodies st (MkState (eng st) (delete l (mem st))).
Proof.
  intros Hl. split; [done|]. intros e. simpl.
  rewrite lookup_delete_ne; [done|apply Hl].
Qed.

Lemma Shape_dtor_same_bodies (this : loc) (st st' : State) :
  Shape_dtor this st = Done st' → same_bodies st st'.
Proof.
  unfold Shape_dtor, load, cpShapeGetSpace, cpShapeFree. intros H.
  exec H; inversion H; subst; by split.
Qed.

Lemma Shape_move_assign_same_bodies (this other : loc) (st st' : State) :
  not_body_slot this → not_body_slot other →
  Shape_move_assign this other st = Done st' → same_bodies st st'.
Proof.
  unfold Shape_move_assign, load, cpShapeGetSpace, cpShapeFree.
  intros Hthis Hother H.
  exec H; inversion H; subst; try apply same_bodies_refl.
  all: split; [done|]; intros e; simpl.
  all: rewrite lookup_insert_ne by apply Hother.
  all: by rewrite lookup_insert_ne by apply Hthis.
Qed.

Lemma shape_on_set_same_bodies (e : Z) (shape space : loc) (st st' : State) :
  shape_on_set e shape space st = Done st' → same_bodies st st'.
Proof.
  unfold shape_on_set, Shape_operator_cpShape, Space_operator_cpSpace, load,
    cpSpaceAddShape. intros H.
  exec H; inversion H; subst; by split.
Qed.

Lemma shape_on_remove_same_bodies (e : Z) (shape space : loc) (st st' : State) :
  shape_on_remove e shape space st = Done st' → same_bodies st st'.
Proof.
  unfold shape_on_remove, Shape_operator_cpShape, Space_operator_cpSpace, load,
    cpSpaceRemoveShape. intros H.
  exec H; inversion H; subst; by split.
Qed.

Lemma step_space_same_bodies (st st' : State) :
  step_space st = Done st' → same_bodies st st'.
Proof.
  unfold step_space, Space_operator_cpSpace, load, cpSpaceStep. intros H.
  exec H; inversion H; subst; by split.
Qed.

Lemma cpShapeNew_same_bodies (sh body : Z) (st : State) (E : Engine) :
  cpShapeNew sh body (eng st) = Done E → same_bodies st (with_eng E st).
Proof.
  unfold cpShapeNew. intros H. exec H; inversion H; subst; by split.
Qed.

Lemma not_body_slot_LTmp (n : Z) : not_body_slot (LTmp n).
Proof. by intros e. Qed.

Lemma not_body_slot_LShape (e : Z) : not_body_slot (LShape e).
Proof. by intros e'. Qed.

Lemma entity_set_Shape_same_bodies (e sh : Z) (st st' : State) :
  entity_set_Shape e sh st = Done st' → same_bodies st st'.
Proof.
  unfold entity_set_Shape. intros H.
  inv_bind H. inv_bind H. inv_bind H. inversion H; subst st'; clear H.
  apply Shape_move_assign_same_bodies in Hm;
    [| apply not_body_slot_LShape | apply not_body_slot_LTmp].
  apply shape_on_set_same_bodies in Hm0.
  apply Shape_dtor_same_bodies in Hm1.
  eapply same_bodies_trans; [| apply same_bodies_delete, not_body_slot_LTmp].
  eapply same_bodies_trans; [| exact Hm1].
  eapply same_bodies_trans; [| exact Hm0].
  eapply same_bodies_trans; [| exact Hm].
  unfold Shape_ctor, Shape_ctor_default.
  destruct (mem (store (LTmp 0) sh st) !! LShape e).
  - apply same_bodies_store, not_body_slot_LTmp.
  - eapply same_bodies_trans; [apply same_bodies_store, not_body_slot_LTmp|].
    apply same_bodies_store, not_body_slot_LShape.
Qed.

Lemma entity_remove_Shape_same_bodies (e : Z) (st st' : State) :
  entity_remove_Shape e st = Done st' → same_bodies st st'.
Proof.
  unfold entity_remove_Shape. intros H.
  destruct (mem st !! LShape e); [| inversion H; apply same_bodies_refl].
  inv_bind H. inv_bind H. inversion H; subst st'; clear H.
  apply shape_on_remove_same_bodies in Hm.
  apply Shape_dtor_same_bodies in Hm0.
  eapply same_bodies_trans; [| apply same_bodies_delete, not_body_slot_LShape].
  by eapply same_bodies_trans.
Qed.

Lemma bridge_inv_same_bodies (st st' : State) :
  same_bodies st st' → bridge_inv st → bridge_inv st'.
Proof.
  intros [HB HM] [HO HS]. split.
  - intros e b Hb. rewrite HM in Hb. rewrite HB. by apply HO.
  - intros e1 e2 b H1 H2. rewrite HM in H1, H2. by eapply HS.
Qed.

Lemma to_uintptr_to_voidp (e : Z) : 0 ≤ e < 2 ^ 64 → to_uintptr (to_voidp e) = e.
Proof.
  intros He. unfold to_uintptr, to_voidp.
  rewrite Z.mod_mod by lia. by apply Z.mod_small.
Qed.

(** What a successful [NewBody e b] does to the [Body] slots and to the
    bodies of the engine. *)
Lemma entity_set_Body_effect (e b : Z) (st st' : State) (E : Engine) :
  cpBodyNew b (eng st) = Done E →
  entity_set_Body e b (with_eng E st) = Done st' →
  bodies (eng st) !! b = None ∧
  mem st' !! LBody e = Some b ∧
  (∀ e', e' ≠ e → mem st' !! LBody e' = mem st !! LBody e') ∧
  (∃ s, bodies (eng st') !! b = Some (CpBody s (to_voidp e))) ∧
  (∀ b', b' ≠ b → mem st !! LBody e ≠ Some b' →
         bodies (eng st') !! b' = bodies (eng st) !! b').
Proof.
  intros HE H. unfold entity_set_Body in H.
  set (st2 := match mem (Body_ctor (LTmp 0) b (with_eng E st)) !! LBody e with
              | Some _ => Body_ctor (LTmp 0) b (with_eng E st)
              | None => Body_ctor_default (LBody e)
                          (Body_ctor (LTmp 0) b (with_eng E st))
              end) in H.
  assert (Htmp : mem st2 !! LTmp 0 = Some b).
  { unfold st2, Body_ctor, Body_ctor_default, store. simpl.
    rewrite lookup_insert_ne by done.
    destruct (mem st !! LBody e); simpl.
    - by rewrite lookup_insert_eq.
    - rewrite lookup_insert_ne by done. by rewrite lookup_insert_eq. }
  assert (Hslot : ∀ p, mem st2 !! LBody e = Some p →
                       p = 0 ∨ mem st !! LBody e = Some p).
  { intros p. unfold st2, Body_ctor, Body_ctor_default, store. simpl.
    rewrite lookup_insert_ne by done.
    destruct (mem st !! LBody e) eqn:Hold; simpl.
    - rewrite lookup_insert_ne by done. rewrite Hold. by right.
    - rewrite lookup_insert_eq. intros [= <-]. by left. }
  assert (Hother : ∀ e', e' ≠ e → mem st2 !! LBody e' = mem st !! LBody e').
  { intros e' Hne. unfold st2, Body_ctor, Body_ctor_default, store. simpl.
    destruct (<[LTmp 0:=b]> (mem st) !! LBody e); simpl.
    - by rewrite lookup_insert_ne.
    - rewrite lookup_insert_ne by congruence. by rewrite lookup_insert_ne. }
  assert (Heng : eng st2 = E).
  { unfold st2. by destruct (mem (Body_ctor (LTmp 0) b (with_eng E st)) !! LBody e). }
  clearbody st2.
  inv_bind H. inv_bind H. inv_bind H. inversion H; subst st'; clear H.
  rename a into st3, a0 into st4, a1 into st5.
  apply Body_move_assign_inv in Hm as (p & q & st1 & Hp & Hq & -> & Hst1); [|done].
  rewrite Htmp in Hq. injection Hq as <-.
  apply body_on_set_inv in Hm0 as (b' & s & o & Hb' & Hb'0 & Ho & ->).
  unfold store in Hb'. simpl in Hb'.
  rewrite lookup_insert_ne in Hb' by done. rewrite lookup_insert_eq in Hb'.
  injection Hb' as <-.
  apply Body_dtor_inv in Hm1 as (p' & Hp' & Hst5).
  unfold store in Hp'. simpl in Hp'. rewrite lookup_insert_eq in Hp'.
  injection Hp' as <-.
  destruct Hst5 as [[_ ->] | [? _]]; [|done].
  assert (Hfresh : bodies (eng st) !! b = None ∧
                   bodies E = <[b := CpBody 0 0]> (bodies (eng st))).
  { unfold cpBodyNew in HE. exec HE; [done|]. by inversion HE. }
  destruct Hfresh as [Hfresh HB].
  assert (Hmem1 : mem st1 = mem st2) by (by destruct Hst1 as [[_ ->] | (_ & ? & _ & _ & ->)]).
  split_and!.
  - done.
  - simpl. rewrite lookup_delete_ne by done. rewrite lookup_insert_ne by done.
    by rewrite lookup_insert_eq.
  - intros e' Hne. simpl. rewrite lookup_delete_ne by done.
    rewrite lookup_insert_ne by done. rewrite lookup_insert_ne by congruence.
    rewrite Hmem1. by apply Hother.
  - exists s. simpl. by rewrite lookup_insert_eq.
  - intros b' Hne Hold. simpl. rewrite !lookup_insert_ne by done.
    destruct Hst1 as [[_ ->] | (Hp0 & o' & _ & _ & ->)]; simpl.
    + rewrite Heng, HB. by rewrite lookup_insert_ne.
    + rewrite Heng, HB. destruct (Hslot p Hp) as [?|Hpold]; [done|].
      rewrite lookup_delete_ne by congruence. by rewrite lookup_insert_ne.
Qed.

Lemma entity_set_Body_inv (e b : Z) (st st' : State) (E : Engine) :
  0 ≤ e < 2 ^ 64 →
  cpBodyNew b (eng st) = Done E →
  entity_set_Body e b (with_eng E st) = Done st' →
  bridge_inv st → bridge_inv st'.
Proof.
  intros He HE H [HO HS].
  destruct (entity_set_Body_effect e b st st' E HE H)
    as (Hfresh & Hnew & Hother & [s Hb] & Hframe).
  assert (Hlive : ∀ e' b', mem st !! LBody e' = Some b' → b' ≠ b).
  { intros e' b' Hb' ->. destruct (HO e' b Hb') as (o & Ho & _). congruence. }
  split.
  - intros e' b' Hb'. destruct (decide (e' = e)) as [->|Hne].
    + rewrite Hnew in Hb'. injection Hb' as <-.
      eexists. split; [exact Hb|]. intros _. simpl. by apply to_uintptr_to_voidp.
    + rewrite Hother in Hb' by done.
      rewrite Hframe; [by apply HO | by eapply Hlive |].
      intros Hold. apply Hne. by eapply HS.
  - intros e1 e2 b' H1 H2.
    destruct (decide (e1 = e)) as [->|Hne1]; destruct (decide (e2 = e)) as [->|Hne2];
      try done.
    + rewrite Hnew in H1. injection H1 as <-. rewrite Hother in H2 by done.
      by destruct (Hlive e2 b H2).
    + rewrite Hnew in H2. injection H2 as <-. rewrite Hother in H1 by done.
      by destruct (Hlive e1 b H1).
    + rewrite Hother in H1, H2 by done. by eapply HS.
Qed.

Lemma entity_remove_Body_inv (e : Z) (st st' : State) :
  entity_remove_Body e st = Done st' → bridge_inv st → bridge_inv st'.
Proof.
  intros H [HO HS]. unfold entity_remove_Body in H.
  destruct (mem st !! LBody e) as [p|] eqn:Hp; [| by inversion H; subst].
  inv_bind H. inv_bind H. inversion H; subst st'; clear H.
  apply body_on_remove_inv in Hm as (b & s & o & Hb & Hb0 & Ho & ->).
  rewrite Hp in Hb. injection Hb as <-.
  apply Body_dtor_inv in Hm0 as (p' & Hp' & Hst).
  simpl in Hp'. rewrite Hp in Hp'. injection Hp' as <-.
  destruct Hst as [[? _] | (_ & o' & _ & _ & ->)]; [done|].
  split.
  - intros e' b' Hb'. simpl in Hb'.
    destruct (decide (e' = e)) as [->|Hne]; [by rewrite lookup_delete_eq in Hb'|].
    rewrite lookup_delete_ne in Hb' by congruence.
    assert (b' ≠ p) by (intros ->; apply Hne; by eapply HS).
    simpl. rewrite lookup_delete_ne by done. rewrite lookup_insert_ne by done.
    by apply HO.
  - intros e1 e2 b' H1 H2. simpl in H1, H2.
    destruct (decide (e1 = e)) as [->|Hne1]; [by rewrite lookup_delete_eq in H1|].
    destruct (decide (e2 = e)) as [->|Hne2]; [by rewrite lookup_delete_eq in H2|].
    rewrite lookup_delete_ne in H1, H2 by congruence. by eapply HS.
Qed.

Lemma step_inv (ev : event) (st st' : State) :
  0 ≤ event_entity ev < 2 ^ 64 →
  step ev st = Done st' → bridge_inv st → bridge_inv st'.
Proof.
  intros He H Hinv. destruct ev as [e b | e sh body | e | e |]; simpl in *.
  - inv_bind H. by eapply entity_set_Body_inv.
  - inv_bind H. eapply bridge_inv_same_bodies; [|exact Hinv].
    eapply same_bodies_trans; [by eapply cpShapeNew_same_bodies|].
    apply entity_set_Shape_same_bodies in H. exact H.
  - by eapply entity_remove_Body_inv.
  - eapply bridge_inv_same_bodies; [|exact Hinv].
    by eapply entity_remove_Shape_same_bodies.
  - eapply bridge_inv_same_bodies; [|exact Hinv].
    by eapply step_space_same_bodies.
Qed.

Lemma run_inv (evs : list event) (st st' : State) :
  Forall (λ ev, 0 ≤ event_entity ev < 2 ^ 64) evs →
  run evs st = Done st' → bridge_inv st → bridge_inv st'.
Proof.
  intros Hevs. revert st. induction Hevs as [| ev evs Hev _ IH]; intros st H Hinv.
  - simpl in H. by inversion H; subst.
  - simpl in H. inv_bind H. eapply IH; [exact H|]. by eapply step_inv.
Qed.

Lemma bridge_inv_no_bodies (st : State) :
  (∀ e, mem st !! LBody e = None) → bridge_inv st.
Proof.
  intros Hnone. split.
  - intros e b Hb. by rewrite Hnone in Hb.
  - intros e1 e2 b Hb. by rewrite Hnone in Hb.
Qed.

Lemma chipmunk2d_no_bodies (s : Z) (st0 : State) :
  chipmunk2d s (MkState engine0 ∅) = Done st0 → ∀ e, mem st0 !! LBody e = None.
Proof.
  unfold chipmunk2d, world_set_Space, Space_move_assign, Space_dtor, Space_ctor,
    Space_ctor_default, cpSpaceNew, cpSpaceSetGravity, cpSpaceFree, load, store,
    with_eng.
  intros H e.
  destruct (decide (s = 0)) as [->|Hs]; [by vm_compute in H|].
  simpl in H.
  rewrite (bool_decide_eq_false_2 (s = 0)) in H by done.
  rewrite (bool_decide_eq_false_2 (s ∈ (∅ : gset Z))) in H by set_solver.
  simpl in H.
  rewrite (bool_decide_eq_true_2 (s ≠ 0)) in H by done.
  rewrite (bool_decide_eq_true_2 (s ∈ {[s]} ∪ (∅ : gset Z))) in H by set_solver.
  simpl in H.
  repeat (first [ rewrite lookup_insert_eq in H
                | rewrite lookup_insert_ne in H by done
                | rewrite lookup_empty in H ]; simpl in H).
  inversion H; subst st0; clear H. simpl.
  rewrite lookup_delete_ne by done.
  by rewrite !lookup_insert_ne by done.
Qed.

(** The handlers resolve both bodies of the arbiter with [resolve]. *)
Lemma beginFunc_resolves (a b ea eb : Z) (E : Engine) (ecs : World) :
  resolve a E = Done ea → resolve b E = Done eb →
  Handlers.beginFunc_indestructable_projectile (a, b) E (Some ecs)
    = Done (entity_add_Collision eb ea ecs, false) ∧
  Handlers.beginFunc_projectile_collision (a, b) E (Some ecs)
    = Done (entity_add_Collision eb ea
              (entity_add_Collision ea eb
                 (entity_doc_name eb (entity_doc_name ea ecs))), true).
Proof.
  unfold resolve, Handlers.beginFunc_indestructable_projectile,
    Handlers.beginFunc_projectile_collision.
  intros Ha Hb. simpl.
  destruct (cpBodyGetUserData a E) as [ua| |]; simpl in *; try discriminate.
  destruct (cpBodyGetUserData b E) as [ub| |]; simpl in *; try discriminate.
  injection Ha as <-. injection Hb as <-. done.
Qed.

(** C6: start from the module constructor and let the application attach
    and detach bodies and shapes and step the space, in any order, with
    entity identities that fit in 64 bits.  In every state such a run
    reaches, a body held by the [Body] component of entity [e] that is a
    member of a space resolves, through its user-data slot, to [e]. *)
Theorem identity_round_trip
    (s : Z) (evs : list event) (st0 st : State) (e b sp : Z) :
  chipmunk2d s (MkState engine0 ∅) = Done st0 →
  Forall (λ ev, 0 ≤ event_entity ev < 2 ^ 64) evs →
  run evs st0 = Done st →
  mem st !! LBody e = Some b →
  cpBodyGetSpace b (eng st) = Done sp → sp ≠ 0 →
  resolve b (eng st) = Done e.
Proof.
  intros Hinit Hevs Hrun Hb Hsp Hsp0.
  assert (Hinv : bridge_inv st).
  { eapply run_inv; [exact Hevs | exact Hrun |].
    apply bridge_inv_no_bodies. by eapply chipmunk2d_no_bodies. }
  destruct Hinv as [HO _]. destruct (HO e b Hb) as (o & Ho & Hres).
  unfold cpBodyGetSpace in Hsp. rewrite Ho in Hsp. injection Hsp as <-.
  unfold resolve, cpBodyGetUserData. rewrite Ho. simpl. by rewrite Hres.
Qed.

Lemma identity_round_trip_witness :
  resolve 11 (eng after_scenario) = Done 2.
Proof.
  apply (identity_round_trip 100 scenario started after_scenario 2 11 100).
  - vm_compute. reflexivity.
  - unfold scenario. repeat constructor; simpl; lia.
  - vm_compute. reflexivity.
  - vm_compute. reflexivity.
  - vm_compute. reflexivity.
  - lia.
Defined.

End round_trip.

(** * Further properties of the code *)

(** ** The destructors of [simple_struct_impl.cpp] *)

(** X1: the destructor of a [Body] or [Shape] that holds a live handle
    frees the handle when it is in no space, and stops on "not removed from
    space" otherwise; it makes no other change. *)
Theorem destructor_frees_only_outside_space
    (lb ls : loc) (st : State) (pb psh : Z) (ob : cpBody) (osh : cpShape) :
  mem st !! lb = Some pb → pb ≠ 0 → bodies (eng st) !! pb = Some ob →
  mem st !! ls = Some psh → psh ≠ 0 → shapes (eng st) !! psh = Some osh →
  SimpleStruct.Body_dtor lb st
  = (if bool_decide (body_space ob = 0)
     then Done (with_eng (body_freed pb (eng st)) st)
     else AssertionFailed "not removed from space") ∧
  SimpleStruct.Shape_dtor ls st
  = (if bool_decide (shape_space osh = 0)
     then Done (with_eng (shape_freed psh (eng st)) st)
     else AssertionFailed "not removed from space").
Proof.
  intros Hb Hb0 Hob Hs Hs0 Hosh. split.
  - case_bool_decide.
    + by eapply Body_dtor_releases.
    + by eapply Body_dtor_in_space.
  - case_bool_decide.
    + by eapply Shape_dtor_releases.
    + by eapply Shape_dtor_in_space.
Qed.

Lemma destructor_frees_only_outside_space_witness :
  SimpleStruct.Body_dtor (LTmp 0) two_wrappers
  = (if bool_decide (body_space (CpBody 0 0) = 0)
     then Done (with_eng (body_freed 10 (eng two_wrappers)) two_wrappers)
     else AssertionFailed "not removed from space") ∧
  SimpleStruct.Shape_dtor (LTmp 1) two_wrappers
  = (if bool_decide (shape_space (CpShape 0 0) = 0)
     then Done (with_eng (shape_freed 11 (eng two_wrappers)) two_wrappers)
     else AssertionFailed "not removed from space").
Proof.
  apply (destructor_frees_only_outside_space (LTmp 0) (LTmp 1) two_wrappers
           10 11 (CpBody 0 0) (CpShape 0 0)); first [reflexivity | lia].
Defined.

(** ** Moves between wrappers *)

Lemma move_frame (W : wrapper) (w d : loc) (st st' : State) (h : Z) :
  W ∈ checked_wrappers ++ unchecked_wrappers → w ≠ d → mem st !! w = Some h →
  (w_ctor_move W d w st = Done st' ∨
   (mem st !! d = Some 0 ∧ w_move_assign W d w st = Done st')) →
  only_moved w d st st'.
Proof.
  intros HW Hne Hw Hop. unfold checked_wrappers, unchecked_wrappers in HW.
  simpl in HW. unfold only_moved.
  repeat (apply elem_of_cons in HW as [-> | HW]); [..| by apply elem_of_nil in HW];
    unfold_wrappers; simpl in *.
  all: destruct Hop as [Hop | [Hd Hop]].
  all: rewrite ?bool_decide_eq_false_2 in Hop by done.
  all: unfold load, store in Hop; simpl in Hop.
  all: rewrite ?lookup_insert_eq in Hop; simpl in Hop.
  all: rewrite ?Hw in Hop; simpl in Hop; rewrite ?lookup_insert_ne in Hop by done.
  all: rewrite ?Hw, ?Hd in Hop; simpl in Hop; rewrite ?lookup_insert_ne in Hop by done.
  all: rewrite ?Hw, ?Hd in Hop; simpl in Hop.
  all: inversion Hop; subst st'; clear Hop; simpl.
  all: split; [done|]; intros l Hlw Hld.
  all: by rewrite !lookup_insert_ne by done.
Qed.

(** X2: in every variant, a move construction, and a move assignment into
    an empty wrapper, make no engine call and change no wrapper other than
    the source and the destination. *)
Theorem move_changes_only_source_and_destination
    (W : wrapper) (w d : loc) (st st' : State) (h : Z) :
  W ∈ checked_wrappers ++ unchecked_wrappers → w ≠ d → mem st !! w = Some h →
  (w_ctor_move W d w st = Done st' ∨
   (mem st !! d = Some 0 ∧ w_move_assign W d w st = Done st')) →
  eng st' = eng st ∧ ∀ l, l ≠ w → l ≠ d → mem st' !! l = mem st !! l.
Proof. intros HW Hne Hw Hop. by eapply move_frame. Qed.

Lemma move_changes_only_source_and_destination_witness :
  eng (store (LTmp 1) 0 (store (LTmp 0) 11 empty_and_full)) = eng empty_and_full ∧
  ∀ l, l ≠ LTmp 1 → l ≠ LTmp 0 →
       mem (store (LTmp 1) 0 (store (LTmp 0) 11 empty_and_full)) !! l
       = mem empty_and_full !! l.
Proof.
  apply (move_changes_only_source_and_destination SimpleStruct_Body
           (LTmp 1) (LTmp 0) empty_and_full _ 11).
  - apply elem_of_app. left. apply list_elem_of_further, list_elem_of_here.
  - discriminate.
  - reflexivity.
  - right. split; reflexivity.
Defined.

(** X3: in every variant, moving a handle into an empty wrapper and moving
    it back restores the state exactly. *)
Theorem move_there_and_back (W : wrapper) (w d : loc) (st : State) (h : Z) :
  W ∈ checked_wrappers ++ unchecked_wrappers → w ≠ d →
  mem st !! w = Some h → mem st !! d = Some 0 →
  w_move_assign W d w st ≫= w_move_assign W w d = Done st.
Proof.
  intros HW Hne Hw Hd. unfold checked_wrappers, unchecked_wrappers in HW.
  simpl in HW.
  assert (Hback : ∀ E, MkState E (<[d:=0]> (<[w:=h]> (<[w:=0]> (<[d:=h]> (mem st)))))
                       = MkState E (mem st)).
  { intros E. f_equal. apply map_eq. intros l.
    destruct (decide (l = d)) as [->|Hld]; [by rewrite lookup_insert_eq|].
    rewrite lookup_insert_ne by done.
    destruct (decide (l = w)) as [->|Hlw]; [by rewrite lookup_insert_eq|].
    by rewrite !lookup_insert_ne by done. }
  assert (Hback' : ∀ E, MkState E (<[w:=h]> (<[d:=0]> (<[d:=h]> (<[w:=0]> (mem st)))))
                        = MkState E (mem st)).
  { intros E. f_equal. apply map_eq. intros l.
    destruct (decide (l = w)) as [->|Hlw]; [by rewrite lookup_insert_eq|].
    rewrite lookup_insert_ne by done.
    destruct (decide (l = d)) as [->|Hld]; [by rewrite lookup_insert_eq|].
    by rewrite !lookup_insert_ne by done. }
  destruct st as [E m]. simpl in *.
  repeat (apply elem_of_cons in HW as [-> | HW]); [..| by apply elem_of_nil in HW];
    unfold_wrappers; simpl.
  all: rewrite ?bool_decide_eq_false_2 by done.
  all: unfold load, store; simpl.
  all: rewrite ?Hw, ?Hd; simpl.
  all: rewrite ?bool_decide_eq_false_2 by done; simpl.
  all: repeat (first [ rewrite lookup_insert_eq
                     | rewrite lookup_insert_ne by done
                     | rewrite Hw | rewrite Hd ]; simpl).
  all: first [ apply (f_equal Done), Hback | apply (f_equal Done), Hback' ].
Qed.

Lemma move_there_and_back_witness :
  SimpleStruct.Body_move_assign (LTmp 0) (LTmp 1) empty_and_full
    ≫= SimpleStruct.Body_move_assign (LTmp 1) (LTmp 0) = Done empty_and_full.
Proof.
  apply (move_there_and_back SimpleStruct_Body (LTmp 1) (LTmp 0) empty_and_full 11).
  - apply elem_of_app. left. apply list_elem_of_further, list_elem_of_here.
  - discriminate.
  - reflexivity.
  - reflexivity.
Defined.

(** ** The observers of [simple_struct_impl.cpp] *)

(** Evaluates a wrapper or observer call on a state whose lookups are
    known. *)
Ltac forward :=
  repeat first
    [ progress simpl
    | rewrite lookup_insert_eq
    | rewrite lookup_insert_ne by done
    | rewrite lookup_delete_ne by done
    | rewrite bool_decide_eq_true_2 by done
    | rewrite bool_decide_eq_false_2 by done
    | match goal with
      | H : ?m !! ?k = _ |- context [?m !! ?k] => rewrite H
      end ].

Lemma body_on_remove_Done (entity : Z) (body space : loc) (st : State) (b s : Z) (o : cpBody) :
  mem st !! body = Some b → b ≠ 0 → mem st !! space = Some s → s ≠ 0 →
  bodies (eng st) !! b = Some o → s ∈ spaces (eng st) →
  SimpleStructWorld.body_on_remove entity body space st
  = Done (with_eng (body_detached s b o (eng st)) st).
Proof.
  intros Hb Hb0 Hs Hs0 Ho Hin.
  unfold SimpleStructWorld.body_on_remove, SimpleStruct.Body_operator_cpBody,
    SimpleStruct.Space_operator_cpSpace, load, cpSpaceRemoveBody.
  by forward.
Qed.

Lemma shape_on_set_Done (entity : Z) (shape space : loc) (st : State) (sh s : Z) (o : cpShape) :
  mem st !! shape = Some sh → sh ≠ 0 → mem st !! space = Some s → s ≠ 0 →
  shapes (eng st) !! sh = Some o → s ∈ spaces (eng st) →
  SimpleStructWorld.shape_on_set entity shape space st
  = Done (with_eng (shape_attached s sh o (eng st)) st).
Proof.
  intros Hb Hb0 Hs Hs0 Ho Hin.
  unfold SimpleStructWorld.shape_on_set, SimpleStruct.Shape_operator_cpShape,
    SimpleStruct.Space_operator_cpSpace, load, cpSpaceAddShape.
  by forward.
Qed.

Lemma shape_on_remove_Done (entity : Z) (shape space : loc) (st : State) (sh s : Z) (o : cpShape) :
  mem st !! shape = Some sh → sh ≠ 0 → mem st !! space = Some s → s ≠ 0 →
  shapes (eng st) !! sh = Some o → s ∈ spaces (eng st) →
  SimpleStructWorld.shape_on_remove entity shape space st
  = Done (with_eng (shape_detached s sh o (eng st)) st).
Proof.
  intros Hb Hb0 Hs Hs0 Ho Hin.
  unfold SimpleStructWorld.shape_on_remove, SimpleStruct.Shape_operator_cpShape,
    SimpleStruct.Space_operator_cpSpace, load, cpSpaceRemoveShape.
  by forward.
Qed.

Lemma entity_remove_Body_Done (e : Z) (st : State) (b s : Z) (o : cpBody) :
  mem st !! LBody e = Some b → b ≠ 0 → mem st !! LSpace = Some s → s ≠ 0 →
  bodies (eng st) !! b = Some o → s ∈ spaces (eng st) →
  SimpleStructWorld.entity_remove_Body e st
  = Done (MkState (body_freed b (body_detached s b o (eng st)))
            (delete (LBody e) (mem st))).
Proof.
  intros Hb Hb0 Hs Hs0 Ho Hin. unfold SimpleStructWorld.entity_remove_Body.
  rewrite Hb. erewrite body_on_remove_Done by done. simpl.
  erewrite Body_dtor_releases; [done | exact Hb | done | |]; simpl.
  - by rewrite lookup_insert_eq.
  - done.
Qed.

Lemma entity_remove_Shape_Done (e : Z) (st : State) (sh s : Z) (o : cpShape) :
  mem st !! LShape e = Some sh → sh ≠ 0 → mem st !! LSpace = Some s → s ≠ 0 →
  shapes (eng st) !! sh = Some o → s ∈ spaces (eng st) →
  SimpleStructWorld.entity_remove_Shape e st
  = Done (MkState (shape_freed sh (shape_detached s sh o (eng st)))
            (delete (LShape e) (mem st))).
Proof.
  intros Hb Hb0 Hs Hs0 Ho Hin. unfold SimpleStructWorld.entity_remove_Shape.
  rewrite Hb. erewrite shape_on_remove_Done by done. simpl.
  erewrite Shape_dtor_releases; [done | exact Hb | done | |]; simpl.
  - by rewrite lookup_insert_eq.
  - done.
Qed.

(** X4: when the [Body] component of an entity goes away while its body is
    a member of the singleton's space, the detach hook and the destructor
    together return: the body is first removed from the space and then
    freed, exactly these two engine calls are made, and the slot is gone.
    The destructor alone would stop on its assertion. *)
Theorem detach_then_destroy_body (e : Z) (st : State) (b s : Z) (o : cpBody) :
  mem st !! LBody e = Some b → b ≠ 0 → mem st !! LSpace = Some s → s ≠ 0 →
  bodies (eng st) !! b = Some o → body_space o = s → s ∈ spaces (eng st) →
  SimpleStruct.Body_dtor (LBody e) st = AssertionFailed "not removed from space" ∧
  ∃ st', SimpleStructWorld.entity_remove_Body e st = Done st' ∧
    calls (eng st') = calls (eng st) ++ [CpSpaceRemoveBody s b; CpBodyFree b] ∧
    bodies (eng st') = delete b (bodies (eng st)) ∧
    shapes (eng st') = shapes (eng st) ∧ spaces (eng st') = spaces (eng st) ∧
    mem st' = delete (LBody e) (mem st).
Proof.
  intros Hb Hb0 Hs Hs0 Ho Hsp Hin. split.
  - eapply Body_dtor_in_space; [done..|]. by rewrite Hsp.
  - eexists. split; [by eapply entity_remove_Body_Done|]. simpl. split_and!; try done.
    + by rewrite <- app_assoc.
    + by rewrite delete_insert_eq.
Qed.

Lemma detach_then_destroy_body_witness :
  SimpleStruct.Body_dtor (LBody 1) attached_world
    = AssertionFailed "not removed from space" ∧
  ∃ st', SimpleStructWorld.entity_remove_Body 1 attached_world = Done st' ∧
    calls (eng st') = calls (eng attached_world) ++ [CpSpaceRemoveBody 100 10; CpBodyFree 10] ∧
    bodies (eng st') = delete 10 (bodies (eng attached_world)) ∧
    shapes (eng st') = shapes (eng attached_world) ∧
    spaces (eng st') = spaces (eng attached_world) ∧
    mem st' = delete (LBody 1) (mem attached_world).
Proof.
  apply (detach_then_destroy_body 1 attached_world 10 100 (CpBody 100 1));
    first [reflexivity | lia | (vm_compute; reflexivity)].
Defined.

(** X5: the same for the [Shape] component: removal from the space, then
    release, in two engine calls. *)
Theorem detach_then_destroy_shape (e : Z) (st : State) (sh s : Z) (o : cpShape) :
  mem st !! LShape e = Some sh → sh ≠ 0 → mem st !! LSpace = Some s → s ≠ 0 →
  shapes (eng st) !! sh = Some o → shape_space o = s → s ∈ spaces (eng st) →
  SimpleStruct.Shape_dtor (LShape e) st = AssertionFailed "not removed from space" ∧
  ∃ st', SimpleStructWorld.entity_remove_Shape e st = Done st' ∧
    calls (eng st') = calls (eng st) ++ [CpSpaceRemoveShape s sh; CpShapeFree sh] ∧
    shapes (eng st') = delete sh (shapes (eng st)) ∧
    bodies (eng st') = bodies (eng st) ∧ spaces (eng st') = spaces (eng st) ∧
    mem st' = delete (LShape e) (mem st).
Proof.
  intros Hb Hb0 Hs Hs0 Ho Hsp Hin. split.
  - eapply Shape_dtor_in_space; [done..|]. by rewrite Hsp.
  - eexists. split; [by eapply entity_remove_Shape_Done|]. simpl. split_and!; try done.
    + by rewrite <- app_assoc.
    + by rewrite delete_insert_eq.
Qed.

Lemma detach_then_destroy_shape_witness :
  SimpleStruct.Shape_dtor (LShape 1) attached_world
    = AssertionFailed "not removed from space" ∧
  ∃ st', SimpleStructWorld.entity_remove_Shape 1 attached_world = Done st' ∧
    calls (eng st') = calls (eng attached_world) ++ [CpSpaceRemoveShape 100 20; CpShapeFree 20] ∧
    shapes (eng st') = delete 20 (shapes (eng attached_world)) ∧
    bodies (eng st') = bodies (eng attached_world) ∧
    spaces (eng st') = spaces (eng attached_world) ∧
    mem st' = delete (LShape 1) (mem attached_world).
Proof.
  apply (detach_then_destroy_shape 1 attached_world 20 100 (CpShape 100 10));
    first [reflexivity | lia | (vm_compute; reflexivity)].
Defined.

(** X6: attaching a body and detaching it again leaves the body in no
    space with the entity's identity still in its user-data slot (the
    detach hook does not clear it); the wrappers are unchanged, three engine
    calls were made, and the destructor may now run. *)
Theorem attach_then_detach_body
    (entity : Z) (body space : loc) (st : State) (b s : Z) (o : cpBody) :
  mem st !! body = Some b → b ≠ 0 → mem st !! space = Some s → s ≠ 0 →
  bodies (eng st) !! b = Some o → body_space o = 0 → s ∈ spaces (eng st) →
  ∃ st', SimpleStructWorld.body_on_set entity body space st
           ≫= SimpleStructWorld.body_on_remove entity body space = Done st' ∧
    bodies (eng st') = <[b := CpBody 0 (to_voidp entity)]> (bodies (eng st)) ∧
    calls (eng st') = calls (eng st) ++
      [CpBodySetUserData b (to_voidp entity); CpSpaceAddBody s b; CpSpaceRemoveBody s b] ∧
    mem st' = mem st ∧
    is_done (SimpleStruct.Body_dtor body st') = true.
Proof.
  intros Hb Hb0 Hs Hs0 Ho Hsp Hin.
  erewrite body_on_set_Done by done. simpl.
  erewrite body_on_remove_Done; [| done..| by simpl; rewrite lookup_insert_eq | done].
  eexists. split; [done|]. simpl. split_and!.
  - by rewrite !insert_insert_eq.
  - by rewrite <- !app_assoc.
  - done.
  - erewrite Body_dtor_releases; [done | exact Hb | done | |]; simpl.
    + by rewrite lookup_insert_eq.
    + done.
Qed.

Lemma attach_then_detach_body_witness :
  ∃ st', SimpleStructWorld.body_on_set 1 (LBody 1) LSpace before_attach
           ≫= SimpleStructWorld.body_on_remove 1 (LBody 1) LSpace = Done st' ∧
    bodies (eng st') = <[10 := CpBody 0 (to_voidp 1)]> (bodies (eng before_attach)) ∧
    calls (eng st') = calls (eng before_attach) ++
      [CpBodySetUserData 10 (to_voidp 1); CpSpaceAddBody 100 10; CpSpaceRemoveBody 100 10] ∧
    mem st' = mem before_attach ∧
    is_done (SimpleStruct.Body_dtor (LBody 1) st') = true.
Proof.
  apply (attach_then_detach_body 1 (LBody 1) LSpace before_attach 10 100 (CpBody 0 0));
    first [reflexivity | lia | (vm_compute; reflexivity)].
Defined.

(** ** Setting a component *)

Lemma temporary_gone (l : loc) (v : Z) (m : gmap loc Z) :
  m !! LTmp 0 = None → l ≠ LTmp 0 →
  delete (LTmp 0) (<[LTmp 0:=0]> (<[l:=v]> (<[l:=0]> (<[LTmp 0:=v]> m)))) = <[l:=v]> m.
Proof.
  intros Hnone Hl. apply map_eq. intros k.
  destruct (decide (k = LTmp 0)) as [->|Hk].
  - rewrite lookup_delete_eq. rewrite lookup_insert_ne by done. by rewrite Hnone.
  - rewrite lookup_delete_ne by done. rewrite lookup_insert_ne by done.
    destruct (decide (k = l)) as [->|Hkl]; [by rewrite !lookup_insert_eq|].
    by rewrite !lookup_insert_ne by done.
Qed.

Lemma entity_set_Body_Done (e b s : Z) (st : State) (o : cpBody) :
  mem st !! LBody e = None → mem st !! LTmp 0 = None →
  mem st !! LSpace = Some s → s ≠ 0 → s ∈ spaces (eng st) →
  b ≠ 0 → bodies (eng st) !! b = Some o →
  SimpleStructWorld.entity_set_Body e b st
  = Done (MkState (body_attached e s b o (eng st)) (<[LBody e := b]> (mem st))).
Proof.
  intros Hslot Htmp Hs Hs0 Hin Hb0 Ho.
  unfold SimpleStructWorld.entity_set_Body, SimpleStruct.Body_ctor,
    SimpleStruct.Body_ctor_default, SimpleStruct.Body_move_assign,
    SimpleStructWorld.body_on_set, SimpleStruct.Body_dtor,
    SimpleStruct.Body_operator_cpBody, SimpleStruct.Space_operator_cpSpace,
    load, store, with_eng, cpBodySetUserData, cpSpaceAddBody.
  forward. by rewrite temporary_gone.
Qed.

Lemma entity_set_Shape_Done (e sh s : Z) (st : State) (o : cpShape) :
  mem st !! LShape e = None → mem st !! LTmp 0 = None →
  mem st !! LSpace = Some s → s ≠ 0 → s ∈ spaces (eng st) →
  sh ≠ 0 → shapes (eng st) !! sh = Some o →
  SimpleStructWorld.entity_set_Shape e sh st
  = Done (MkState (shape_attached s sh o (eng st)) (<[LShape e := sh]> (mem st))).
Proof.
  intros Hslot Htmp Hs Hs0 Hin Hb0 Ho.
  unfold SimpleStructWorld.entity_set_Shape, SimpleStruct.Shape_ctor,
    SimpleStruct.Shape_ctor_default, SimpleStruct.Shape_move_assign,
    SimpleStructWorld.shape_on_set, SimpleStruct.Shape_dtor,
    SimpleStruct.Shape_operator_cpShape, SimpleStruct.Space_operator_cpSpace,
    load, store, with_eng, cpSpaceAddShape.
  forward. by rewrite temporary_gone.
Qed.

Lemma entity_set_Body_attached (e b p : Z) (st : State) (o : cpBody) :
  mem st !! LBody e = Some p → p ≠ 0 →
  bodies (eng st) !! p = Some o → body_space o ≠ 0 →
  SimpleStructWorld.entity_set_Body e b st = AssertionFailed "not removed from space".
Proof.
  intros Hp Hp0 Ho Hsp.
  unfold SimpleStructWorld.entity_set_Body, SimpleStruct.Body_ctor. simpl.
  rewrite lookup_insert_ne by done. rewrite Hp.
  rewrite (Body_move_assign_in_space (LBody e) (LTmp 0) _ p o); try done.
  unfold store. simpl. by rewrite lookup_insert_ne.
Qed.

Lemma entity_set_Shape_attached (e sh p : Z) (st : State) (o : cpShape) :
  mem st !! LShape e = Some p → p ≠ 0 →
  shapes (eng st) !! p = Some o → shape_space o ≠ 0 →
  SimpleStructWorld.entity_set_Shape e sh st = AssertionFailed "not removed from space".
Proof.
  intros Hp Hp0 Ho Hsp.
  unfold SimpleStructWorld.entity_set_Shape, SimpleStruct.Shape_ctor. simpl.
  rewrite lookup_insert_ne by done. rewrite Hp.
  rewrite (Shape_move_assign_in_space (LShape e) (LTmp 0) _ p o); try done.
  unfold store. simpl. by rewrite lookup_insert_ne.
Qed.

Lemma entity_set_Body_null (e : Z) (st : State) :
  mem st !! LBody e = None →
  SimpleStructWorld.entity_set_Body e 0 st
  = AssertionFailed "cpBody pointer not initialized".
Proof.
  intros Hslot.
  unfold SimpleStructWorld.entity_set_Body, SimpleStruct.Body_ctor,
    SimpleStruct.Body_ctor_default, SimpleStruct.Body_move_assign,
    SimpleStructWorld.body_on_set, SimpleStruct.Body_operator_cpBody,
    load, store, with_eng.
  by forward.
Qed.

Lemma entity_set_Shape_null (e : Z) (st : State) (s : Z) :
  mem st !! LShape e = None → mem st !! LSpace = Some s → s ≠ 0 →
  SimpleStructWorld.entity_set_Shape e 0 st
  = AssertionFailed "cpShape pointer not initialized".
Proof.
  intros Hslot Hs Hs0.
  unfold SimpleStructWorld.entity_set_Shape, SimpleStruct.Shape_ctor,
    SimpleStruct.Shape_ctor_default, SimpleStruct.Shape_move_assign,
    SimpleStructWorld.shape_on_set, SimpleStruct.Shape_operator_cpShape,
    SimpleStruct.Space_operator_cpSpace, load, store, with_eng.
  by forward.
Qed.

(** X7: setting a [Body] on an entity whose [Body] is attached, or a
    [Shape] on an entity whose [Shape] is attached, stops on "not removed
    from space": the move assignment into the slot finds the old handle
    still a member of the space, whatever handle is being set. *)
Theorem set_on_attached_component_asserts
    (e b sh pb psh : Z) (st : State) (ob : cpBody) (osh : cpShape) :
  mem st !! LBody e = Some pb → pb ≠ 0 →
  bodies (eng st) !! pb = Some ob → body_space ob ≠ 0 →
  mem st !! LShape e = Some psh → psh ≠ 0 →
  shapes (eng st) !! psh = Some osh → shape_space osh ≠ 0 →
  SimpleStructWorld.entity_set_Body e b st = AssertionFailed "not removed from space" ∧
  SimpleStructWorld.entity_set_Shape e sh st = AssertionFailed "not removed from space".
Proof.
  intros. split.
  - by eapply entity_set_Body_attached.
  - by eapply entity_set_Shape_attached.
Qed.

Lemma set_on_attached_component_asserts_witness :
  SimpleStructWorld.entity_set_Body 1 11 attached_world
    = AssertionFailed "not removed from space" ∧
  SimpleStructWorld.entity_set_Shape 1 21 attached_world
    = AssertionFailed "not removed from space".
Proof.
  apply (set_on_attached_component_asserts 1 11 21 10 20 attached_world
           (CpBody 100 1) (CpShape 100 10));
    first [reflexivity | (simpl; lia)].
Defined.

(** X8: a null handle given to [set<Body>] or [set<Shape>] on an entity
    without that component is wrapped and moved into the slot without
    complaint, and is caught by the conversion assertion inside the attach
    hook, before any engine call. *)
Theorem set_null_handle_asserts_in_hook (e s : Z) (st : State) :
  mem st !! LBody e = None → mem st !! LShape e = None →
  mem st !! LSpace = Some s → s ≠ 0 →
  SimpleStructWorld.entity_set_Body e 0 st
    = AssertionFailed "cpBody pointer not initialized" ∧
  SimpleStructWorld.entity_set_Shape e 0 st
    = AssertionFailed "cpShape pointer not initialized".
Proof.
  intros Hb Hsh Hs Hs0. split.
  - by apply entity_set_Body_null.
  - by eapply entity_set_Shape_null.
Qed.

Lemma set_null_handle_asserts_in_hook_witness :
  SimpleStructWorld.entity_set_Body 2 0 attached_world
    = AssertionFailed "cpBody pointer not initialized" ∧
  SimpleStructWorld.entity_set_Shape 2 0 attached_world
    = AssertionFailed "cpShape pointer not initialized".
Proof.
  apply (set_null_handle_asserts_in_hook 2 100 attached_world);
    first [reflexivity | lia].
Defined.

(** ** The module constructors *)

Lemma chipmunk2d_Done (s : Z) (st : State) :
  s ≠ 0 → s ∉ spaces (eng st) →
  mem st !! LSpace = None → mem st !! LTmp 0 = None →
  SimpleStructWorld.chipmunk2d s st
    = Done (MkState (space_created s (eng st)) (<[LSpace := s]> (mem st))) ∧
  UniquePtrWorld.chipmunk2d s st
    = Done (MkState (space_created s (eng st)) (<[LSpace := s]> (mem st))).
Proof.
  intros Hs Hfresh Hnone Htmp.
  assert (Hin : s ∈ {[s]} ∪ spaces (eng st)) by set_solver.
  unfold SimpleStructWorld.chipmunk2d, UniquePtrWorld.chipmunk2d,
    SimpleStructWorld.world_set_Space, SimpleStruct.Space_move_assign,
    SimpleStruct.Space_dtor, SimpleStruct.Space_ctor, UniquePtr.Space_ctor,
    UniquePtr.ctor, SimpleStruct.Space_ctor_default,
    cpSpaceNew, cpSpaceSetGravity, load, store, with_eng, space_created.
  split.
  - forward. by rewrite temporary_gone.
  - by forward.
Qed.

(** X9: given a fresh non-null space, the module constructors of
    [simple_struct_impl.cpp] and of [unique_ptr_impl.cpp] return the same
    state: the space exists, its gravity is the one engine call made, the
    singleton slot holds it, and the temporary of [set<Space>] is gone. *)
Theorem module_constructors_agree (s : Z) (st : State) :
  s ≠ 0 → s ∉ spaces (eng st) →
  mem st !! LSpace = None → mem st !! LTmp 0 = None →
  SimpleStructWorld.chipmunk2d s st
    = Done (MkState (space_created s (eng st)) (<[LSpace := s]> (mem st))) ∧
  UniquePtrWorld.chipmunk2d s st
    = Done (MkState (space_created s (eng st)) (<[LSpace := s]> (mem st))).
Proof. intros Hs Hfresh Hnone Htmp. by apply chipmunk2d_Done. Qed.

Lemma module_constructors_agree_witness :
  SimpleStructWorld.chipmunk2d 100 (MkState engine0 ∅)
    = Done (MkState (space_created 100 engine0) (<[LSpace := 100]> ∅)) ∧
  UniquePtrWorld.chipmunk2d 100 (MkState engine0 ∅)
    = Done (MkState (space_created 100 engine0) (<[LSpace := 100]> ∅)).
Proof.
  apply (module_constructors_agree 100 (MkState engine0 ∅));
    first [lia | reflexivity | (vm_compute; by intros [])| set_solver].
Defined.

(** ** Runs of the bridge *)

Lemma frees_follow_removals_app (cs chunk : list call) :
  frees_follow_removals cs → Forall (λ c, is_free c = false) chunk →
  frees_follow_removals (cs ++ chunk).
Proof.
  intros Hcs Hchunk i c Hi. apply lookup_app_Some in Hi as [Hi | [_ Hi]].
  - specialize (Hcs i c Hi). destruct c; try done.
    + destruct Hcs as (j & s & -> & Hj). exists j, s. split; [done|].
      by apply lookup_app_l_Some.
    + destruct Hcs as (j & s & -> & Hj). exists j, s. split; [done|].
      by apply lookup_app_l_Some.
  - apply list_elem_of_lookup_2 in Hi.
    rewrite Forall_forall in Hchunk. specialize (Hchunk c Hi). by destruct c.
Qed.

Lemma frees_follow_removals_body (cs : list call) (s b : Z) :
  frees_follow_removals cs →
  frees_follow_removals ((cs ++ [CpSpaceRemoveBody s b]) ++ [CpBodyFree b]).
Proof.
  intros Hcs i c Hi. apply lookup_app_Some in Hi as [Hi | [Hlen Hi]].
  - assert (Hok : frees_follow_removals (cs ++ [CpSpaceRemoveBody s b])).
    { apply frees_follow_removals_app; [done|]. by repeat constructor. }
    specialize (Hok i c Hi). destruct c; try done.
    + destruct Hok as (j & s' & -> & Hj). exists j, s'. split; [done|].
      by apply lookup_app_l_Some.
    + destruct Hok as (j & s' & -> & Hj). exists j, s'. split; [done|].
      by apply lookup_app_l_Some.
  - rewrite length_app in Hlen, Hi. simpl in Hlen, Hi.
    destruct (i - (length cs + 1))%nat as [|k] eqn:Hk; simpl in Hi; [|done].
    injection Hi as <-. exists (length cs), s. split; [lia|].
    apply lookup_app_l_Some. rewrite lookup_app_r by lia.
    by replace (length cs - length cs)%nat with 0%nat by lia.
Qed.

Lemma frees_follow_removals_shape (cs : list call) (s sh : Z) :
  frees_follow_removals cs →
  frees_follow_removals ((cs ++ [CpSpaceRemoveShape s sh]) ++ [CpShapeFree sh]).
Proof.
  intros Hcs i c Hi. apply lookup_app_Some in Hi as [Hi | [Hlen Hi]].
  - assert (Hok : frees_follow_removals (cs ++ [CpSpaceRemoveShape s sh])).
    { apply frees_follow_removals_app; [done|]. by repeat constructor. }
    specialize (Hok i c Hi). destruct c; try done.
    + destruct Hok as (j & s' & -> & Hj). exists j, s'. split; [done|].
      by apply lookup_app_l_Some.
    + destruct Hok as (j & s' & -> & Hj). exists j, s'. split; [done|].
      by apply lookup_app_l_Some.
  - rewrite length_app in Hlen, Hi. simpl in Hlen, Hi.
    destruct (i - (length cs + 1))%nat as [|k] eqn:Hk; simpl in Hi; [|done].
    injection Hi as <-. exists (length cs), s. split; [lia|].
    apply lookup_app_l_Some. rewrite lookup_app_r by lia.
    by replace (length cs - length cs)%nat with 0%nat by lia.
Qed.

Lemma cpBodyNew_inv (b : Z) (E E' : Engine) :
  cpBodyNew b E = Done E' →
  (b = 0 ∧ E' = E) ∨
  (b ≠ 0 ∧ bodies E !! b = None ∧
   E' = MkEngine (spaces E) (<[b := CpBody 0 0]> (bodies E)) (shapes E) (calls E)).
Proof.
  unfold cpBodyNew. intros H. case_bool_decide.
  - left. by inversion H.
  - right. destruct (bodies E !! b); [done|]. by inversion H.
Qed.

Lemma cpShapeNew_inv (sh body : Z) (E E' : Engine) :
  cpShapeNew sh body E = Done E' →
  (sh = 0 ∧ E' = E) ∨
  (sh ≠ 0 ∧ shapes E !! sh = None ∧
   E' = MkEngine (spaces E) (bodies E) (<[sh := CpShape 0 body]> (shapes E)) (calls E)).
Proof.
  unfold cpShapeNew. intros H. case_bool_decide.
  - left. by inversion H.
  - right. destruct (shapes E !! sh); [done|]. by inversion H.
Qed.

Lemma step_space_Done (s : Z) (st : State) :
  singleton_live s st →
  SimpleStructWorld.step_space st
  = Done (with_eng (MkEngine (spaces (eng st)) (bodies (eng st)) (shapes (eng st))
                      (calls (eng st) ++ [CpSpaceStep s])) st).
Proof.
  intros (Hs & Hs0 & Hin).
  unfold SimpleStructWorld.step_space, SimpleStruct.Space_operator_cpSpace, load,
    cpSpaceStep.
  by forward.
Qed.

Lemma new_body_world_inv (s e b : Z) (st st' : State) :
  world_inv s st → SimpleStructWorld.step (SimpleStructWorld.NewBody e b) st = Done st' →
  world_inv s st'.
Proof.
  intros (Hsing & Htmp & Hba & Hbo & Hso & Hsa & Hsho & Hsso & Htr) H.
  simpl in H. inv_bind H. rename a into E.
  destruct Hsing as (Hs & Hs0 & Hin).
  assert (Hno : ∀ p, mem st !! LBody e = Some p → bodies E !! p = bodies (eng st) !! p →
                     False).
  { intros p Hp HE. destruct (Hba e p Hp) as [Hp0 Hlive].
    rewrite (entity_set_Body_attached e b p (with_eng E st) (CpBody s (to_voidp e)))
      in H; try done. simpl. by rewrite HE. }
  apply cpBodyNew_inv in Hm as [[-> ->] | (Hb0 & Hfresh & ->)].
  { destruct (mem st !! LBody e) as [p|] eqn:Hslot; [by destruct (Hno p)|].
    by rewrite entity_set_Body_null in H. }
  destruct (mem st !! LBody e) as [p|] eqn:Hslot.
  { destruct (Hno p eq_refl). simpl. rewrite lookup_insert_ne; [done|].
    intros ->. destruct (Hba e p Hslot) as [_ Hlive]. congruence. }
  rewrite (entity_set_Body_Done e b s _ (CpBody 0 0)) in H; try done;
    [| by simpl; rewrite lookup_insert_eq].
  injection H as <-.
  unfold world_inv, singleton_live, no_temporaries, bodies_attached, bodies_owned,
    single_owner, shapes_attached, shapes_owned, single_shape_owner, body_attached.
  simpl.
  assert (Hheld : ∀ e' b', mem st !! LBody e' = Some b' → b' ≠ b).
  { intros e' b' Hb' ->. destruct (Hba e' b Hb') as [_ Hlive]. congruence. }
  split_and!.
  - by rewrite lookup_insert_ne.
  - done.
  - done.
  - intros n. rewrite lookup_insert_ne by done. apply Htmp.
  - intros e' b' Hb'. destruct (decide (e' = e)) as [->|Hne].
    + rewrite lookup_insert_eq in Hb'. injection Hb' as <-.
      split; [done|]. by rewrite lookup_insert_eq.
    + rewrite lookup_insert_ne in Hb' by congruence.
      destruct (Hba e' b' Hb') as [Hb'0 Hlive]. split; [done|].
      rewrite !lookup_insert_ne; [done | by apply not_eq_sym, (Hheld e')..].
  - intros b' Hlive. destruct (decide (b' = b)) as [->|Hne].
    + exists e. by rewrite lookup_insert_eq.
    + rewrite !lookup_insert_ne in Hlive by done.
      destruct (Hbo b' Hlive) as [e' He']. exists e'.
      rewrite lookup_insert_ne; [done|]. intros [= ->]. congruence.
  - intros e1 e2 b' H1 H2.
    destruct (decide (e1 = e)) as [->|Hne1]; destruct (decide (e2 = e)) as [->|Hne2];
      try done.
    + rewrite lookup_insert_eq in H1. injection H1 as <-.
      rewrite lookup_insert_ne in H2 by congruence. by destruct (Hheld e2 b H2).
    + rewrite lookup_insert_eq in H2. injection H2 as <-.
      rewrite lookup_insert_ne in H1 by congruence. by destruct (Hheld e1 b H1).
    + rewrite lookup_insert_ne in H1, H2 by congruence. by eapply Hso.
  - intros e' sh Hsh. rewrite lookup_insert_ne in Hsh by done. by eapply Hsa.
  - intros sh Hlive. destruct (Hsho sh Hlive) as [e' He']. exists e'.
    by rewrite lookup_insert_ne.
  - intros e1 e2 sh H1 H2. rewrite lookup_insert_ne in H1, H2 by done. by eapply Hsso.
  - rewrite <- app_assoc. apply frees_follow_removals_app; [done|].
    by repeat constructor.
Qed.

Lemma new_shape_world_inv (s e sh body : Z) (st st' : State) :
  world_inv s st →
  SimpleStructWorld.step (SimpleStructWorld.NewShape e sh body) st = Done st' →
  world_inv s st'.
Proof.
  intros (Hsing & Htmp & Hba & Hbo & Hso & Hsa & Hsho & Hsso & Htr) H.
  simpl in H. inv_bind H. rename a into E.
  destruct Hsing as (Hs & Hs0 & Hin).
  assert (Hno : ∀ p, mem st !! LShape e = Some p → shapes E !! p = shapes (eng st) !! p →
                     False).
  { intros p Hp HE. destruct (Hsa e p Hp) as (Hp0 & body' & Hlive).
    rewrite (entity_set_Shape_attached e sh p (with_eng E st) (CpShape s body'))
      in H; try done. simpl. by rewrite HE. }
  apply cpShapeNew_inv in Hm as [[-> ->] | (Hb0 & Hfresh & ->)].
  { destruct (mem st !! LShape e) as [p|] eqn:Hslot; [by destruct (Hno p)|].
    by rewrite (entity_set_Shape_null e _ s) in H. }
  destruct (mem st !! LShape e) as [p|] eqn:Hslot.
  { destruct (Hno p eq_refl). simpl. rewrite lookup_insert_ne; [done|].
    intros ->. destruct (Hsa e p Hslot) as (_ & ? & Hlive). congruence. }
  rewrite (entity_set_Shape_Done e sh s _ (CpShape 0 body)) in H; try done;
    [| by simpl; rewrite lookup_insert_eq].
  injection H as <-.
  unfold world_inv, singleton_live, no_temporaries, bodies_attached, bodies_owned,
    single_owner, shapes_attached, shapes_owned, single_shape_owner, shape_attached.
  simpl.
  assert (Hheld : ∀ e' sh', mem st !! LShape e' = Some sh' → sh' ≠ sh).
  { intros e' sh' Hb' ->. destruct (Hsa e' sh Hb') as (_ & ? & Hlive). congruence. }
  split_and!.
  - by rewrite lookup_insert_ne.
  - done.
  - done.
  - intros n. rewrite lookup_insert_ne by done. apply Htmp.
  - intros e' b' Hb'. rewrite lookup_insert_ne in Hb' by done. by eapply Hba.
  - intros b' Hlive. destruct (Hbo b' Hlive) as [e' He']. exists e'.
    by rewrite lookup_insert_ne.
  - intros e1 e2 b' H1 H2. rewrite lookup_insert_ne in H1, H2 by done. by eapply Hso.
  - intros e' sh' Hb'. destruct (decide (e' = e)) as [->|Hne].
    + rewrite lookup_insert_eq in Hb'. injection Hb' as <-.
      split; [done|]. exists body. by rewrite lookup_insert_eq.
    + rewrite lookup_insert_ne in Hb' by congruence.
      destruct (Hsa e' sh' Hb') as (Hb'0 & body' & Hlive). split; [done|].
      exists body'.
      rewrite !lookup_insert_ne; [done | by apply not_eq_sym, (Hheld e')..].
  - intros sh' Hlive. destruct (decide (sh' = sh)) as [->|Hne].
    + exists e. by rewrite lookup_insert_eq.
    + rewrite !lookup_insert_ne in Hlive by done.
      destruct (Hsho sh' Hlive) as [e' He']. exists e'.
      rewrite lookup_insert_ne; [done|]. intros [= ->]. congruence.
  - intros e1 e2 sh' H1 H2.
    destruct (decide (e1 = e)) as [->|Hne1]; destruct (decide (e2 = e)) as [->|Hne2];
      try done.
    + rewrite lookup_insert_eq in H1. injection H1 as <-.
      rewrite lookup_insert_ne in H2 by congruence. by destruct (Hheld e2 sh H2).
    + rewrite lookup_insert_eq in H2. injection H2 as <-.
      rewrite lookup_insert_ne in H1 by congruence. by destruct (Hheld e1 sh H1).
    + rewrite lookup_insert_ne in H1, H2 by congruence. by eapply Hsso.
  - apply frees_follow_removals_app; [done|]. by repeat constructor.
Qed.

Lemma remove_body_world_inv (s e : Z) (st st' : State) :
  world_inv s st → SimpleStructWorld.entity_remove_Body e st = Done st' →
  world_inv s st'.
Proof.
  intros Hinv H. destruct (mem st !! LBody e) as [b|] eqn:Hslot; cycle 1.
  { unfold SimpleStructWorld.entity_remove_Body in H. rewrite Hslot in H.
    by injection H as <-. }
  destruct Hinv as (Hsing & Htmp & Hba & Hbo & Hso & Hsa & Hsho & Hsso & Htr).
  destruct Hsing as (Hs & Hs0 & Hin). destruct (Hba e b Hslot) as [Hb0 Hlive].
  rewrite (entity_remove_Body_Done e st b s _ Hslot Hb0 Hs Hs0 Hlive Hin) in H.
  injection H as <-.
  unfold world_inv, singleton_live, no_temporaries, bodies_attached, bodies_owned,
    single_owner, shapes_attached, shapes_owned, single_shape_owner, body_freed,
    body_detached.
  simpl.
  assert (Hother : ∀ e' b', e' ≠ e → mem st !! LBody e' = Some b' → b' ≠ b).
  { intros e' b' Hne Hb' ->. apply Hne. by eapply Hso. }
  split_and!.
  - by rewrite lookup_delete_ne.
  - done.
  - done.
  - intros n. rewrite lookup_delete_ne by done. apply Htmp.
  - intros e' b' Hb'. destruct (decide (e' = e)) as [->|Hne].
    { by rewrite lookup_delete_eq in Hb'. }
    rewrite lookup_delete_ne in Hb' by congruence.
    destruct (Hba e' b' Hb') as [Hb'0 Hlive']. split; [done|].
    rewrite lookup_delete_ne, lookup_insert_ne; [done | by apply not_eq_sym, (Hother e')..].
  - intros b' Hlive'. destruct (decide (b' = b)) as [->|Hne].
    { rewrite lookup_delete_eq in Hlive'. by destruct Hlive'. }
    rewrite lookup_delete_ne, lookup_insert_ne in Hlive' by done.
    destruct (Hbo b' Hlive') as [e' He']. exists e'.
    rewrite lookup_delete_ne; [done|]. intros [= ->]. congruence.
  - intros e1 e2 b' H1 H2.
    destruct (decide (e1 = e)) as [->|Hne1]; [by rewrite lookup_delete_eq in H1|].
    destruct (decide (e2 = e)) as [->|Hne2]; [by rewrite lookup_delete_eq in H2|].
    rewrite lookup_delete_ne in H1, H2 by congruence. by eapply Hso.
  - intros e' sh Hsh. rewrite lookup_delete_ne in Hsh by done. by eapply Hsa.
  - intros sh Hlive'. destruct (Hsho sh Hlive') as [e' He']. exists e'.
    by rewrite lookup_delete_ne.
  - intros e1 e2 sh H1 H2. rewrite lookup_delete_ne in H1, H2 by done. by eapply Hsso.
  - by apply frees_follow_removals_body.
Qed.

Lemma remove_shape_world_inv (s e : Z) (st st' : State) :
  world_inv s st → SimpleStructWorld.entity_remove_Shape e st = Done st' →
  world_inv s st'.
Proof.
  intros Hinv H. destruct (mem st !! LShape e) as [sh|] eqn:Hslot; cycle 1.
  { unfold SimpleStructWorld.entity_remove_Shape in H. rewrite Hslot in H.
    by injection H as <-. }
  destruct Hinv as (Hsing & Htmp & Hba & Hbo & Hso & Hsa & Hsho & Hsso & Htr).
  destruct Hsing as (Hs & Hs0 & Hin).
  destruct (Hsa e sh Hslot) as (Hb0 & body & Hlive).
  rewrite (entity_remove_Shape_Done e st sh s _ Hslot Hb0 Hs Hs0 Hlive Hin) in H.
  injection H as <-.
  unfold world_inv, singleton_live, no_temporaries, bodies_attached, bodies_owned,
    single_owner, shapes_attached, shapes_owned, single_shape_owner, shape_freed,
    shape_detached.
  simpl.
  assert (Hother : ∀ e' sh', e' ≠ e → mem st !! LShape e' = Some sh' → sh' ≠ sh).
  { intros e' sh' Hne Hb' ->. apply Hne. by eapply Hsso. }
  split_and!.
  - by rewrite lookup_delete_ne.
  - done.
  - done.
  - intros n. rewrite lookup_delete_ne by done. apply Htmp.
  - intros e' b' Hb'. rewrite lookup_delete_ne in Hb' by done. by eapply Hba.
  - intros b' Hlive'. destruct (Hbo b' Hlive') as [e' He']. exists e'.
    by rewrite lookup_delete_ne.
  - intros e1 e2 b' H1 H2. rewrite lookup_delete_ne in H1, H2 by done. by eapply Hso.
  - intros e' sh' Hb'. destruct (decide (e' = e)) as [->|Hne].
    { by rewrite lookup_delete_eq in Hb'. }
    rewrite lookup_delete_ne in Hb' by congruence.
    destruct (Hsa e' sh' Hb') as (Hb'0 & body' & Hlive'). split; [done|].
    exists body'.
    rewrite lookup_delete_ne, lookup_insert_ne; [done | by apply not_eq_sym, (Hother e')..].
  - intros sh' Hlive'. destruct (decide (sh' = sh)) as [->|Hne].
    { rewrite lookup_delete_eq in Hlive'. by destruct Hlive'. }
    rewrite lookup_delete_ne, lookup_insert_ne in Hlive' by done.
    destruct (Hsho sh' Hlive') as [e' He']. exists e'.
    rewrite lookup_delete_ne; [done|]. intros [= ->]. congruence.
  - intros e1 e2 sh' H1 H2.
    destruct (decide (e1 = e)) as [->|Hne1]; [by rewrite lookup_delete_eq in H1|].
    destruct (decide (e2 = e)) as [->|Hne2]; [by rewrite lookup_delete_eq in H2|].
    rewrite lookup_delete_ne in H1, H2 by congruence. by eapply Hsso.
  - by apply frees_follow_removals_shape.
Qed.

Lemma step_world_inv (s : Z) (ev : SimpleStructWorld.event) (st st' : State) :
  world_inv s st → SimpleStructWorld.step ev st = Done st' → world_inv s st'.
Proof.
  intros Hinv H. destruct ev as [e b | e sh body | e | e |].
  - by eapply new_body_world_inv.
  - by eapply new_shape_world_inv.
  - by eapply remove_body_world_inv.
  - by eapply remove_shape_world_inv.
  - simpl in H. destruct Hinv as (Hsing & Hrest).
    rewrite (step_space_Done s st Hsing) in H. injection H as <-.
    destruct Hrest as (Htmp & Hba & Hbo & Hso & Hsa & Hsho & Hsso & Htr).
    unfold world_inv. split_and!; try done.
    simpl. apply frees_follow_removals_app; [done|]. by repeat constructor.
Qed.

Lemma run_world_inv (s : Z) (evs : list SimpleStructWorld.event) (st st' : State) :
  world_inv s st → SimpleStructWorld.run evs st = Done st' → world_inv s st'.
Proof.
  revert st. induction evs as [|ev evs IH]; intros st Hinv H; simpl in H.
  - by injection H as <-.
  - inv_bind H. eapply IH; [|exact H]. by eapply step_world_inv.
Qed.

Lemma chipmunk2d_world_inv (s : Z) (st0 : State) :
  SimpleStructWorld.chipmunk2d s (MkState engine0 ∅) = Done st0 → world_inv s st0.
Proof.
  intros H. destruct (decide (s = 0)) as [->|Hs]; [by vm_compute in H|].
  rewrite (proj1 (chipmunk2d_Done s (MkState engine0 ∅) Hs ltac:(set_solver) eq_refl eq_refl)) in H.
  (* *)
  injection H as <-.
  unfold world_inv, singleton_live, no_temporaries, bodies_attached, bodies_owned,
    single_owner, shapes_attached, shapes_owned, single_shape_owner, space_created.
  simpl. split_and!.
  - by rewrite lookup_insert_eq.
  - done.
  - set_solver.
  - intros n. by rewrite lookup_insert_ne.
  - intros e b Hb. by rewrite lookup_insert_ne in Hb.
  - intros b [o Ho]. by rewrite lookup_empty in Ho.
  - intros e1 e2 b Hb. by rewrite lookup_insert_ne in Hb.
  - intros e sh Hsh. by rewrite lookup_insert_ne in Hsh.
  - intros sh [o Ho]. by rewrite lookup_empty in Ho.
  - intros e1 e2 sh Hsh. by rewrite lookup_insert_ne in Hsh.
  - intros i c Hi. destruct i; simpl in Hi; [by injection Hi as <-|done].
Qed.

(** X10: after any run of attach, detach and step events that starts from
    the module constructor, the live bodies of the engine are exactly the
    handles held by [Body] components and the live shapes exactly those
    held by [Shape] components; no handle is held twice and no temporary
    wrapper is left.  No handle is leaked and none dangles. *)
Theorem no_handle_leaked_or_dangling
    (s : Z) (evs : list SimpleStructWorld.event) (st0 st : State) :
  SimpleStructWorld.chipmunk2d s (MkState engine0 ∅) = Done st0 →
  SimpleStructWorld.run evs st0 = Done st →
  (∀ b, is_Some (bodies (eng st) !! b) ↔ ∃ e, mem st !! LBody e = Some b) ∧
  (∀ sh, is_Some (shapes (eng st) !! sh) ↔ ∃ e, mem st !! LShape e = Some sh) ∧
  single_owner st ∧ single_shape_owner st ∧ no_temporaries st.
Proof.
  intros Hinit Hrun.
  destruct (run_world_inv s evs st0 st (chipmunk2d_world_inv s st0 Hinit) Hrun)
    as (_ & Htmp & Hba & Hbo & Hso & Hsa & Hsho & Hsso & _).
  split_and!; try done.
  - intros b. split; [apply Hbo|]. intros [e He]. by destruct (Hba e b He) as [_ ->].
  - intros sh. split; [apply Hsho|]. intros [e He].
    by destruct (Hsa e sh He) as (_ & body & ->).
Qed.

Lemma no_handle_leaked_or_dangling_witness :
  (∀ b, is_Some (bodies (eng after_scenario) !! b)
        ↔ ∃ e, mem after_scenario !! LBody e = Some b) ∧
  (∀ sh, is_Some (shapes (eng after_scenario) !! sh)
         ↔ ∃ e, mem after_scenario !! LShape e = Some sh) ∧
  single_owner after_scenario ∧ single_shape_owner after_scenario ∧
  no_temporaries after_scenario.
Proof.
  apply (no_handle_leaked_or_dangling 100 scenario started after_scenario).
  - vm_compute. reflexivity.
  - vm_compute. reflexivity.
Defined.

(** X11: after any such run the singleton still holds the live space that
    the constructor created, every body held by a [Body] component is a
    member of that space and carries the identity of its entity, and every
    shape held by a [Shape] component is a member of that space. *)
Theorem attached_components_are_space_members
    (s : Z) (evs : list SimpleStructWorld.event) (st0 st : State) :
  SimpleStructWorld.chipmunk2d s (MkState engine0 ∅) = Done st0 →
  SimpleStructWorld.run evs st0 = Done st →
  SimpleStruct.Space_operator_cpSpace LSpace st = Done s ∧ s ∈ spaces (eng st) ∧
  (∀ e b, mem st !! LBody e = Some b →
     cpBodyGetSpace b (eng st) = Done s ∧
     cpBodyGetUserData b (eng st) = Done (to_voidp e)) ∧
  (∀ e sh, mem st !! LShape e = Some sh → cpShapeGetSpace sh (eng st) = Done s).
Proof.
  intros Hinit Hrun.
  destruct (run_world_inv s evs st0 st (chipmunk2d_world_inv s st0 Hinit) Hrun)
    as ((Hs & Hs0 & Hin) & _ & Hba & _ & _ & Hsa & _).
  split_and!; try done.
  - unfold SimpleStruct.Space_operator_cpSpace, load. rewrite Hs. simpl.
    by rewrite bool_decide_eq_true_2.
  - intros e b He. destruct (Hba e b He) as [_ Hlive].
    unfold cpBodyGetSpace, cpBodyGetUserData. by rewrite Hlive.
  - intros e sh He. destruct (Hsa e sh He) as (_ & body & Hlive).
    unfold cpShapeGetSpace. by rewrite Hlive.
Qed.

Lemma attached_components_are_space_members_witness :
  SimpleStruct.Space_operator_cpSpace LSpace after_scenario = Done 100 ∧
  100 ∈ spaces (eng after_scenario) ∧
  (∀ e b, mem after_scenario !! LBody e = Some b →
     cpBodyGetSpace b (eng after_scenario) = Done 100 ∧
     cpBodyGetUserData b (eng after_scenario) = Done (to_voidp e)) ∧
  (∀ e sh, mem after_scenario !! LShape e = Some sh →
     cpShapeGetSpace sh (eng after_scenario) = Done 100).
Proof.
  apply (attached_components_are_space_members 100 scenario started after_scenario).
  - vm_compute. reflexivity.
  - vm_compute. reflexivity.
Defined.

(** X12: in the engine calls of any such run, every [cpBodyFree] comes
    directly after the [cpSpaceRemoveBody] of the same body, every
    [cpShapeFree] directly after the [cpSpaceRemoveShape] of the same
    shape, and the space is never freed. *)
Theorem release_follows_removal
    (s : Z) (evs : list SimpleStructWorld.event) (st0 st : State) :
  SimpleStructWorld.chipmunk2d s (MkState engine0 ∅) = Done st0 →
  SimpleStructWorld.run evs st0 = Done st →
  frees_follow_removals (calls (eng st)).
Proof.
  intros Hinit Hrun.
  by destruct (run_world_inv s evs st0 st (chipmunk2d_world_inv s st0 Hinit) Hrun)
    as (_ & _ & _ & _ & _ & _ & _ & _ & Htr).
Qed.

Lemma release_follows_removal_witness :
  frees_follow_removals (calls (eng after_scenario)).
Proof.
  apply (release_follows_removal 100 scenario started after_scenario).
  - vm_compute. reflexivity.
  - vm_compute. reflexivity.
Defined.

(** X13: on a state reached by such a run, [set<Body>] on an entity that
    already has a [Body] component stops on "not removed from space",
    whether the handle being set is null or the address of a new body; the
    same holds for [set<Shape>].  Every component of a reached state is
    attached, so a component is never overwritten through [set]. *)
Theorem set_on_existing_component_never_returns
    (s : Z) (evs : list SimpleStructWorld.event) (st0 st : State) :
  SimpleStructWorld.chipmunk2d s (MkState engine0 ∅) = Done st0 →
  SimpleStructWorld.run evs st0 = Done st →
  (∀ e p b, mem st !! LBody e = Some p → bodies (eng st) !! b = None →
     SimpleStructWorld.step (SimpleStructWorld.NewBody e b) st
     = AssertionFailed "not removed from space") ∧
  (∀ e p sh body, mem st !! LShape e = Some p → shapes (eng st) !! sh = None →
     SimpleStructWorld.step (SimpleStructWorld.NewShape e sh body) st
     = AssertionFailed "not removed from space").
Proof.
  intros Hinit Hrun.
  destruct (run_world_inv s evs st0 st (chipmunk2d_world_inv s st0 Hinit) Hrun)
    as ((Hs & Hs0 & Hin) & _ & Hba & _ & _ & Hsa & _).
  split.
  - intros e p b Hp Hfresh. destruct (Hba e p Hp) as [Hp0 Hlive].
    simpl. unfold cpBodyNew. rewrite Hfresh. case_bool_decide; simpl.
    + by eapply (entity_set_Body_attached e b p _ (CpBody s (to_voidp e))).
    + eapply (entity_set_Body_attached e b p _ (CpBody s (to_voidp e)));
        [exact Hp | done | | done].
      simpl. rewrite lookup_insert_ne; [exact Hlive | congruence].
  - intros e p sh body Hp Hfresh. destruct (Hsa e p Hp) as (Hp0 & body' & Hlive).
    simpl. unfold cpShapeNew. rewrite Hfresh. case_bool_decide; simpl.
    + by eapply (entity_set_Shape_attached e sh p _ (CpShape s body')).
    + eapply (entity_set_Shape_attached e sh p _ (CpShape s body'));
        [exact Hp | done | | done].
      simpl. rewrite lookup_insert_ne; [exact Hlive | congruence].
Qed.

Lemma set_on_existing_component_never_returns_witness :
  SimpleStructWorld.step (SimpleStructWorld.NewBody 2 12) after_scenario
    = AssertionFailed "not removed from space" ∧
  SimpleStructWorld.step (SimpleStructWorld.NewBody 2 0) after_scenario
    = AssertionFailed "not removed from space".
Proof.
  destruct (set_on_existing_component_never_returns 100 scenario started after_scenario)
    as [Hbody _]; [vm_compute; reflexivity | vm_compute; reflexivity |].
  split.
  - apply (Hbody 2 11 12); vm_compute; reflexivity.
  - apply (Hbody 2 11 0); vm_compute; reflexivity.
Defined.

(** ** The [unique_ptr] components *)

(** X14: with a non-empty [Body] (or [Shape]) and a non-empty singleton,
    every observer of [unique_ptr_impl.cpp] and its [step_space] system
    behave exactly as those of [simple_struct_impl.cpp]. *)
Theorem unique_ptr_observers_agree
    (entity : Z) (body shape : loc) (st : State) (b s : Z) :
  mem st !! body = Some b → b ≠ 0 → mem st !! LSpace = Some s → s ≠ 0 →
  UniquePtrWorld.body_on_set entity body LSpace st
    = SimpleStructWorld.body_on_set entity body LSpace st ∧
  UniquePtrWorld.body_on_remove entity body LSpace st
    = SimpleStructWorld.body_on_remove entity body LSpace st ∧
  UniquePtrWorld.shape_on_set entity shape LSpace st
    = SimpleStructWorld.shape_on_set entity shape LSpace st ∧
  UniquePtrWorld.shape_on_remove entity shape LSpace st
    = SimpleStructWorld.shape_on_remove entity shape LSpace st ∧
  UniquePtrWorld.step_space st = SimpleStructWorld.step_space st.
Proof.
  intros Hb Hb0 Hs Hs0.
  unfold UniquePtrWorld.body_on_set, SimpleStructWorld.body_on_set,
    UniquePtrWorld.body_on_remove, SimpleStructWorld.body_on_remove,
    UniquePtrWorld.shape_on_set, SimpleStructWorld.shape_on_set,
    UniquePtrWorld.shape_on_remove, SimpleStructWorld.shape_on_remove,
    UniquePtrWorld.step_space, SimpleStructWorld.step_space,
    UniquePtr.Body_get, UniquePtr.Space_get, UniquePtr.get,
    UniquePtr.Shape_operator_cpShape,
    SimpleStruct.Body_operator_cpBody, SimpleStruct.Space_operator_cpSpace, load.
  simpl. rewrite Hb, Hs. simpl.
  rewrite !(bool_decide_eq_true_2 (b ≠ 0)) by done.
  rewrite !(bool_decide_eq_true_2 (s ≠ 0)) by done. simpl.
  split_and!; reflexivity.
Qed.

Lemma unique_ptr_observers_agree_witness :
  UniquePtrWorld.body_on_set 1 (LBody 1) LSpace attached_world
    = SimpleStructWorld.body_on_set 1 (LBody 1) LSpace attached_world ∧
  UniquePtrWorld.body_on_remove 1 (LBody 1) LSpace attached_world
    = SimpleStructWorld.body_on_remove 1 (LBody 1) LSpace attached_world ∧
  UniquePtrWorld.shape_on_set 1 (LShape 1) LSpace attached_world
    = SimpleStructWorld.shape_on_set 1 (LShape 1) LSpace attached_world ∧
  UniquePtrWorld.shape_on_remove 1 (LShape 1) LSpace attached_world
    = SimpleStructWorld.shape_on_remove 1 (LShape 1) LSpace attached_world ∧
  UniquePtrWorld.step_space attached_world = SimpleStructWorld.step_space attached_world.
Proof.
  apply (unique_ptr_observers_agree 1 (LBody 1) (LShape 1) attached_world 10 100);
    first [reflexivity | lia].
Defined.

(** X15: in [unique_ptr_impl.cpp], emplacing a fresh body on an entity
    without a [Body] and then removing the component frees the body after
    four engine calls (user data, add, remove, free) and leaves the
    wrappers as they were. *)
Theorem unique_ptr_emplace_then_remove (e b s : Z) (st : State) (o : cpBody) :
  mem st !! LBody e = None → mem st !! LSpace = Some s → s ∈ spaces (eng st) →
  b ≠ 0 → bodies (eng st) !! b = Some o → body_space o = 0 →
  ∃ st', UniquePtrWorld.entity_emplace_Body e b st
           ≫= UniquePtrWorld.entity_remove_Body e = Done st' ∧
    mem st' = mem st ∧
    bodies (eng st') = delete b (bodies (eng st)) ∧
    calls (eng st') = calls (eng st) ++
      [CpBodySetUserData b (to_voidp e); CpSpaceAddBody s b;
       CpSpaceRemoveBody s b; CpBodyFree b].
Proof.
  intros Hslot Hs Hin Hb0 Ho Hsp.
  unfold UniquePtrWorld.entity_emplace_Body, UniquePtrWorld.entity_remove_Body,
    UniquePtrWorld.body_on_set, UniquePtrWorld.body_on_remove,
    UniquePtr.Body_ctor, UniquePtr.Body_dtor, UniquePtr.dtor, UniquePtr.ctor,
    UniquePtr.Body_get, UniquePtr.Space_get, UniquePtr.get, UniquePtr.BodyDeleter,
    load, store, with_eng, cpBodySetUserData, cpSpaceAddBody, cpSpaceRemoveBody,
    cpBodyFree.
  forward. eexists. split; [reflexivity|]. simpl. split_and!.
  - by rewrite delete_insert_id.
  - rewrite !delete_insert_eq. done.
  - by rewrite <- !app_assoc.
Qed.

Lemma unique_ptr_emplace_then_remove_witness :
  ∃ st', UniquePtrWorld.entity_emplace_Body 2 11 one_attached_one_fresh
           ≫= UniquePtrWorld.entity_remove_Body 2 = Done st' ∧
    mem st' = mem one_attached_one_fresh ∧
    bodies (eng st')
      = delete 11 (bodies (eng one_attached_one_fresh)) ∧
    calls (eng st') = calls (eng one_attached_one_fresh) ++
      [CpBodySetUserData 11 (to_voidp 2); CpSpaceAddBody 100 11;
       CpSpaceRemoveBody 100 11; CpBodyFree 11].
Proof.
  apply (unique_ptr_emplace_then_remove 2 11 100 _ (CpBody 0 0));
    first [reflexivity | lia | (vm_compute; reflexivity)].
Defined.

(** X16: move assignment into a [unique_ptr] body that holds a live body,
    or into a [unique_ptr] space that holds a live space, empties the
    source, stores the new handle and passes the old one to the deleter,
    which frees it: nothing is leaked and no assertion is involved, whether
    or not the old body is still a member of a space. *)
Theorem unique_ptr_move_assign_releases (st : State) :
  (∀ this other p q o,
     this ≠ other → mem st !! this = Some p → p ≠ 0 → mem st !! other = Some q →
     bodies (eng st) !! p = Some o →
     UniquePtr.Body_move_assign this other st
     = Done (with_eng (body_freed p (eng st)) (store this q (store other 0 st)))) ∧
  (∀ this other p q,
     this ≠ other → mem st !! this = Some p → p ≠ 0 → mem st !! other = Some q →
     p ∈ spaces (eng st) →
     UniquePtr.Space_move_assign this other st
     = Done (with_eng (space_freed p (eng st)) (store this q (store other 0 st)))).
Proof.
  split.
  - intros this other p q o Hne Hp Hp0 Hq Ho.
    unfold UniquePtr.Body_move_assign, UniquePtr.move_assign, UniquePtr.release,
      UniquePtr.reset, UniquePtr.BodyDeleter, load, store, with_eng, cpBodyFree,
      body_freed.
    by forward.
  - intros this other p q Hne Hp Hp0 Hq Hin.
    unfold UniquePtr.Space_move_assign, UniquePtr.move_assign, UniquePtr.release,
      UniquePtr.reset, UniquePtr.SpaceDeleter, load, store, with_eng, cpSpaceFree,
      space_freed.
    by forward.
Qed.

Lemma unique_ptr_move_assign_releases_witness :
  UniquePtr.Body_move_assign (LBody 1) (LTmp 1) typed_wrappers
    = Done (with_eng (body_freed 10 (eng typed_wrappers))
              (store (LBody 1) 11 (store (LTmp 1) 0 typed_wrappers))) ∧
  UniquePtr.Body_move_assign (LBody 1) (LTmp 0) (store (LTmp 0) 11 attached_world)
    = Done (with_eng (body_freed 10 (eng attached_world))
              (store (LBody 1) 11 (store (LTmp 0) 0 (store (LTmp 0) 11 attached_world)))) ∧
  UniquePtr.Space_move_assign LSpace (LTmp 9) typed_wrappers
    = Done (with_eng (space_freed 100 (eng typed_wrappers))
              (store LSpace 101 (store (LTmp 9) 0 typed_wrappers))).
Proof.
  split_and!.
  - apply (proj1 (unique_ptr_move_assign_releases typed_wrappers)
             (LBody 1) (LTmp 1) 10 11 (CpBody 0 0));
      first [discriminate | reflexivity | lia].
  - apply (proj1 (unique_ptr_move_assign_releases (store (LTmp 0) 11 attached_world))
             (LBody 1) (LTmp 0) 10 11 (CpBody 100 1));
      first [discriminate | reflexivity | lia].
  - apply (proj2 (unique_ptr_move_assign_releases typed_wrappers)
             LSpace (LTmp 9) 100 101);
      first [discriminate | reflexivity | lia | (vm_compute; reflexivity)].
Defined.

(** ** The module constructors of the earlier revisions *)

Lemma local_gone (s1 s2 : Z) (m : gmap loc Z) :
  m !! LTmp 1 = None →
  delete (LTmp 1) (<[LTmp 1:=0]> (<[LSpace:=s1]> (<[LSpace:=s2]> (<[LTmp 1:=s1]> m))))
  = <[LSpace:=s1]> m.
Proof.
  intros Hnone. apply map_eq. intros k.
  destruct (decide (k = LTmp 1)) as [->|Hk].
  - rewrite lookup_delete_eq. rewrite lookup_insert_ne by done. by rewrite Hnone.
  - rewrite lookup_delete_ne by done. rewrite lookup_insert_ne by done.
    destruct (decide (k = LSpace)) as [->|Hkl]; [by rewrite !lookup_insert_eq|].
    by rewrite !lookup_insert_ne by done.
Qed.

(** X17: the module constructor of the first revision allocates two spaces
    and keeps one.  [Space()] allocates, so the default construction of the
    singleton slot inside [set] allocates a second space [s2]; the move
    assignment of that revision then overwrites the slot with [s1] without
    freeing.  Afterwards both spaces are live, no engine call released
    either, and the singleton, the only wrapper touched, holds [s1]. *)
Theorem first_revision_constructor_leaks_a_space (s1 s2 : Z) (st : State) :
  s1 ≠ 0 → s2 ≠ 0 → s1 ≠ s2 → s1 ∉ spaces (eng st) → s2 ∉ spaces (eng st) →
  mem st !! LSpace = None → mem st !! LTmp 1 = None →
  FirstVariant.chipmunk2d s1 s2 st
    = Done (MkState (two_spaces_created s1 s2 (eng st)) (<[LSpace := s1]> (mem st))) ∧
  s2 ∈ spaces (two_spaces_created s1 s2 (eng st)) ∧
  (∀ l, <[LSpace := s1]> (mem st) !! l = Some s2 → mem st !! l = Some s2).
Proof.
  intros H1 H2 Hne Hf1 Hf2 Hslot Htmp.
  assert (Hin1 : s1 ∈ {[s1]} ∪ spaces (eng st)) by set_solver.
  assert (Hnin2 : s2 ∉ {[s1]} ∪ spaces (eng st)).
  { intros [Heq%elem_of_singleton | Hold]%elem_of_union; done. }
  split_and!.
  - unfold FirstVariant.chipmunk2d, FirstVariant.world_set_Space,
      FirstVariant.Space_ctor_default, FirstVariant.Space_operator_cpSpace,
      FirstVariant.Space_move_assign, FirstVariant.Space_dtor,
      cpSpaceNew, cpSpaceSetGravity, load, store, with_eng, two_spaces_created.
    forward. by rewrite local_gone.
  - unfold two_spaces_created. simpl. apply elem_of_union_l. by apply elem_of_singleton.
  - intros l Hl. destruct (decide (l = LSpace)) as [->|Hls].
    + rewrite lookup_insert_eq in Hl. congruence.
    + by rewrite lookup_insert_ne in Hl.
Qed.

Lemma first_revision_constructor_leaks_a_space_witness :
  FirstVariant.chipmunk2d 100 101 (MkState engine0 ∅)
    = Done (MkState (two_spaces_created 100 101 engine0) (<[LSpace := 100]> ∅)) ∧
  101 ∈ spaces (two_spaces_created 100 101 engine0) ∧
  (∀ l, <[LSpace := 100]> (∅ : gmap loc Z) !! l = Some 101 →
        (∅ : gmap loc Z) !! l = Some 101).
Proof.
  apply (first_revision_constructor_leaks_a_space 100 101 (MkState engine0 ∅));
    first [lia | reflexivity | set_solver].
Defined.

(** X18: the module constructor of the second revision has no check of
    its own on the allocation: when [cpSpaceNew] answers null, it stops on
    the assertion of the conversion operator at [cpSpaceSetGravity]; given
    a fresh non-null space it returns the state that the constructor of
    [simple_struct_impl.cpp] returns. *)
Theorem second_revision_constructor (s : Z) (st : State) :
  s ≠ 0 → s ∉ spaces (eng st) →
  mem st !! LSpace = None → mem st !! LTmp 0 = None → mem st !! LTmp 1 = None →
  SecondVariant.chipmunk2d 0 st = AssertionFailed "cpSpace pointer not initialized" ∧
  SecondVariant.chipmunk2d s st
    = Done (MkState (space_created s (eng st)) (<[LSpace := s]> (mem st))) ∧
  SecondVariant.chipmunk2d s st = SimpleStructWorld.chipmunk2d s st.
Proof.
  intros Hs Hfresh Hslot Htmp0 Htmp1.
  assert (Hin : s ∈ {[s]} ∪ spaces (eng st)) by set_solver.
  assert (Hrun : SecondVariant.chipmunk2d s st
    = Done (MkState (space_created s (eng st)) (<[LSpace := s]> (mem st)))).
  { unfold SecondVariant.chipmunk2d, SecondVariant.world_set_Space,
      SecondVariant.Space_ctor, SecondVariant.Space_ctor_default,
      SecondVariant.Space_operator_cpSpace, SecondVariant.Space_move_assign,
      SecondVariant.Space_dtor, SimpleStruct.Space_ctor,
      SimpleStruct.Space_ctor_default, SimpleStruct.Space_operator_cpSpace,
      SimpleStruct.Space_move_assign, SimpleStruct.Space_dtor,
      cpSpaceNew, cpSpaceSetGravity, load, store, with_eng, space_created.
    forward. f_equal. f_equal. apply map_eq. intros k.
    destruct (decide (k = LTmp 1)) as [->|Hk].
    - rewrite lookup_delete_eq. rewrite lookup_insert_ne by done. by rewrite Htmp1.
    - rewrite lookup_delete_ne by done. rewrite lookup_insert_ne by done.
      destruct (decide (k = LSpace)) as [->|Hkl]; [by rewrite !lookup_insert_eq|].
      by rewrite !lookup_insert_ne by done. }
  split_and!.
  - unfold SecondVariant.chipmunk2d, SecondVariant.Space_ctor,
      SecondVariant.Space_operator_cpSpace, SimpleStruct.Space_ctor,
      SimpleStruct.Space_operator_cpSpace, cpSpaceNew, load, store, with_eng.
    by forward.
  - exact Hrun.
  - rewrite Hrun. symmetry. by apply chipmunk2d_Done.
Qed.

Lemma second_revision_constructor_witness :
  SecondVariant.chipmunk2d 0 (MkState engine0 ∅)
    = AssertionFailed "cpSpace pointer not initialized" ∧
  SecondVariant.chipmunk2d 100 (MkState engine0 ∅)
    = Done (MkState (space_created 100 engine0) (<[LSpace := 100]> ∅)) ∧
  SecondVariant.chipmunk2d 100 (MkState engine0 ∅)
    = SimpleStructWorld.chipmunk2d 100 (MkState engine0 ∅).
Proof.
  apply (second_revision_constructor 100 (MkState engine0 ∅));
    first [lia | reflexivity | set_solver].
Defined.
